(** * legend-studio: the unknown packageable element and the service
      registration modal

    A shallow embedding of

    - [INTERNAL__UnknownPackageableElement] (its [_elementHashCode] getter and
      its [accept_PackageableElementVisitor] method), and
    - the [registerService] action of [ServiceRegisterModal.tsx].

    Both are written in one small monad of programs: a program reads and
    writes a mutable state, throws, and calls collaborators that live outside
    the embedded code (hash helpers, visitors, the depot client, the graph
    manager).  A call is a node of the program and is answered by an
    environment, so that what is called, in which order and with which
    arguments can be read off the trace of a run. *)

From Corelib Require Import PrimFloat.
From Stdlib Require Import List Ascii String Bool Arith Lia.
Import ListNotations.
Local Open Scope string_scope.
Local Open Scope list_scope.

Set Implicit Arguments.

(** ** Completions: a call returns a value or throws *)

Inductive Completion (E A : Type) : Type :=
| Normal (a : A)
| Abrupt (e : E).

Arguments Normal {E A} a.
Arguments Abrupt {E A} e.

Definition isNormal {E A} (c : Completion E A) : bool :=
  match c with Normal _ => true | Abrupt _ => false end.

(** ** Programs *)

Section Programs.

(** The mutable state the code reads and writes. *)
Variable St : Type.
(** The calls to collaborators, indexed by the type of what they return. *)
Variable Call : Type -> Type.
(** What can be thrown. *)
Variable Thrown : Type.

Inductive Prog (A : Type) : Type :=
| Ret (a : A)
| Throw (e : Thrown)
| Get (k : St -> Prog A)
| Put (s : St) (k : Prog A)
| Invoke (R : Type) (c : Call R) (k : Completion Thrown R -> Prog A).

Arguments Ret {A} a.
Arguments Throw {A} e.
Arguments Get {A} k.
Arguments Put {A} s k.
Arguments Invoke {A R} c k.

Fixpoint bind {A B} (p : Prog A) (f : A -> Prog B) : Prog B :=
  match p with
  | Ret a => f a
  | Throw e => Throw e
  | Get k => Get (fun s => bind (k s) f)
  | Put s k => Put s (bind k f)
  | Invoke c k => Invoke c (fun r => bind (k r) f)
  end.

(** A call whose exception is not caught at the call site: the value on a
    normal completion, the exception rethrown otherwise.  For an
    asynchronous collaborator this is [await call(...)]. *)
Definition call {R} (c : Call R) : Prog R :=
  Invoke c (fun r => match r with Normal v => Ret v | Abrupt e => Throw e end).

Definition modify (f : St -> St) : Prog unit :=
  Get (fun s => Put (f s) (Ret tt)).

Definition gets {A} (f : St -> A) : Prog A :=
  Get (fun s => Ret (f s)).

(** [try { p } catch (e) { h e }] *)
Fixpoint try_catch {A} (p : Prog A) (h : Thrown -> Prog A) : Prog A :=
  match p with
  | Ret a => Ret a
  | Throw e => h e
  | Get k => Get (fun s => try_catch (k s) h)
  | Put s k => Put s (try_catch k h)
  | Invoke c k => Invoke c (fun r => try_catch (k r) h)
  end.

(** [try { p } finally { f }]: [f] runs on both exits; when [f] throws,
    its exception replaces the completion of [p]. *)
Fixpoint try_finally {A} (p : Prog A) (f : Prog unit) : Prog A :=
  match p with
  | Ret a => bind f (fun _ => Ret a)
  | Throw e => bind f (fun _ => Throw e)
  | Get k => Get (fun s => try_finally (k s) f)
  | Put s k => Put s (try_finally k f)
  | Invoke c k => Invoke c (fun r => try_finally (k r) f)
  end.

Definition try_catch_finally {A} (p : Prog A) (h : Thrown -> Prog A)
           (f : Prog unit) : Prog A :=
  try_finally (try_catch p h) f.

(** *** Running a program

    The environment answers a call with a completion.  It is given the
    state and hands a state back: while an asynchronous call is awaited,
    other tasks run and may have changed the state the program shares with
    them. *)

Definition Env : Type :=
  forall R : Type, Call R -> St -> Completion Thrown R * St.

(** One entry of the trace: a call and the completion it was answered
    with. *)
Inductive Event : Type :=
| Ev (R : Type) (c : Call R) (r : Completion Thrown R).

Record Outcome (A : Type) : Type := mkOutcome {
  result : Completion Thrown A;
  final : St;
  trace : list Event
}.

Definition logged {A} (e : Event) (o : Outcome A) : Outcome A :=
  mkOutcome (result o) (final o) (e :: trace o).

Fixpoint run (env : Env) {A} (p : Prog A) (s : St) : Outcome A :=
  match p with
  | Ret a => mkOutcome (Normal a) s []
  | Throw e => mkOutcome (Abrupt e) s []
  | Get k => run env (k s) s
  | Put s' k => run env k s'
  | Invoke c k =>
      let (r, s') := env _ c s in
      logged (Ev c r) (run env (k r) s')
  end.

(** An environment whose collaborators are functions of their arguments
    and leave the state alone. *)
Definition Handler : Type := forall R : Type, Call R -> Completion Thrown R.

Definition pureEnv (h : Handler) : Env := fun R c s => (h R c, s).

(** *** Tasks

    An asynchronous function runs until its next [await]; the event loop
    resumes it when the awaited call has settled, and other tasks run in
    between.  [awaited] tells the calls that are awaited from the calls
    that return at once. *)

Variable awaited : forall R : Type, Call R -> bool.

Inductive Task (A : Type) : Type :=
| Settled (r : Completion Thrown A)
| Awaiting (R : Type) (c : Call R) (k : Completion Thrown R -> Prog A).

Fixpoint advance (h : Handler) {A} (p : Prog A) (s : St) : Task A * St :=
  match p with
  | Ret a => (Settled (Normal a), s)
  | Throw e => (Settled (Abrupt e), s)
  | Get k => advance h (k s) s
  | Put s' k => advance h k s'
  | Invoke c k =>
      if awaited c then (Awaiting c k, s) else advance h (k (h _ c)) s
  end.

Definition resume (h : Handler) {A} (t : Task A) (s : St) : Task A * St :=
  match t with
  | Settled r => (Settled r, s)
  | Awaiting c k => advance h (k (h _ c)) s
  end.

(** What a task has left to do. *)
Definition pending {A} (t : Task A) : Prog A :=
  match t with
  | Settled (Normal a) => Ret a
  | Settled (Abrupt e) => Throw e
  | Awaiting c k => Invoke c k
  end.

End Programs.

Arguments Ret {St Call Thrown A} a.
Arguments Throw {St Call Thrown A} e.
Arguments Get {St Call Thrown A} k.
Arguments Put {St Call Thrown A} s k.
Arguments Invoke {St Call Thrown A R} c k.
Arguments Ev {Call Thrown R} c r.
Arguments bind {St Call Thrown A B} p f.
Arguments call {St Call Thrown R} c.
Arguments modify {St Call Thrown} f.
Arguments gets {St Call Thrown A} f.
Arguments try_catch {St Call Thrown A} p h.
Arguments try_finally {St Call Thrown A} p f.
Arguments try_catch_finally {St Call Thrown A} p h f.
Arguments run {St Call Thrown} env {A} p s.
Arguments pureEnv {St Call Thrown} h R c s : rename.
Arguments logged {St Call Thrown A} e o.
Arguments mkOutcome {St Call Thrown A} result final trace.
Arguments result {St Call Thrown A} o.
Arguments final {St Call Thrown A} o.
Arguments trace {St Call Thrown A} o.
Arguments Settled {St Call Thrown A} r.
Arguments Awaiting {St Call Thrown A R} c k.
Arguments advance {St Call Thrown} awaited h {A} p s.
Arguments resume {St Call Thrown} awaited h {A} t s.
Arguments pending {St Call Thrown A} t.

Declare Scope prog_scope.
Delimit Scope prog_scope with prog.
Notation "x <- p ;; k" := (bind p (fun x => k))
  (at level 61, p at next level, right associativity) : prog_scope.
Notation "p ;;; k" := (bind p (fun _ => k))
  (at level 61, right associativity) : prog_scope.
Local Open Scope prog_scope.

(** *** Waiting

    What a task that runs alone waits for, and a helper for the list of the
    tasks of an event loop. *)

Section Suspensions.

Variable St : Type.
Variable Call : Type -> Type.
Variable Thrown : Type.
Variable awaited : forall R : Type, Call R -> bool.

(** The awaited calls of a task that runs alone, each with the state the
    task has left when it starts to wait. *)
Fixpoint suspensions (h : Handler Call Thrown) {A} (p : Prog St Call Thrown A)
         (s : St) : list (Event Call Thrown * St) :=
  match p with
  | Ret _ => []
  | Throw _ => []
  | Get k => suspensions h (k s) s
  | Put s' k => suspensions h k s'
  | Invoke c k =>
      (if awaited c then [(Ev c (h _ c), s)] else [])
        ++ suspensions h (k (h _ c)) s
  end.

(** [l] with its [i]-th element replaced. *)
Fixpoint replaceNth {X} (i : nat) (x : X) (l : list X) {struct l} : list X :=
  match l, i with
  | [], _ => []
  | _ :: r, O => x :: r
  | y :: r, S j => y :: replaceNth j x r
  end.

(** The errors the calls of a run have thrown, in order. *)
Definition raised (tr : list (Event Call Thrown)) : list Thrown :=
  flat_map (fun e =>
              match e with
              | Ev _ r =>
                  match r with
                  | Normal _ => []
                  | Abrupt x => [x]
                  end
              end) tr.

End Suspensions.

Arguments suspensions {St Call Thrown} awaited h {A} p s.
Arguments raised {Call Thrown} tr.

(** ** Plain objects

    [PlainObject] of legend-shared is [Record<PropertyKey, unknown>]: the
    JSON payload of an element.  Fields keep their order; a number is a
    double, as in JavaScript. *)

Unset Elimination Schemes.
Inductive JsonValue : Type :=
| JNull
| JBool (b : bool)
| JNumber (n : float)
| JString (s : string)
| JArray (items : list JsonValue)
| JObject (fields : list (string * JsonValue)).
Set Elimination Schemes.

Definition PlainObject : Type := list (string * JsonValue).

(** Induction over a JSON value, with the hypothesis for every item of an
    array and every field value of an object. *)
Definition JsonValue_ind (P : JsonValue -> Prop)
    (Hnull : P JNull)
    (Hbool : forall b, P (JBool b))
    (Hnumber : forall n, P (JNumber n))
    (Hstring : forall s, P (JString s))
    (Harray : forall items, Forall P items -> P (JArray items))
    (Hobject : forall fields,
        Forall (fun kv => P (snd kv)) fields -> P (JObject fields)) :
  forall v, P v :=
  fix go (v : JsonValue) : P v :=
    match v with
    | JNull => Hnull
    | JBool b => Hbool b
    | JNumber n => Hnumber n
    | JString s => Hstring s
    | JArray items =>
        Harray items
          ((fix all (l : list JsonValue) : Forall P l :=
              match l with
              | [] => Forall_nil _
              | x :: r => Forall_cons x (go x) (all r)
              end) items)
    | JObject fields =>
        Hobject fields
          ((fix all (l : list (string * JsonValue)) :
              Forall (fun kv => P (snd kv)) l :=
              match l with
              | [] => Forall_nil _
              | kv :: r => Forall_cons kv (go (snd kv)) (all r)
              end) fields)
    end.

(** What a piece of code of this repository can throw: an [Error] object
    or, since JavaScript lets any value be thrown, any other value. *)
Inductive Thrown : Type :=
| JsError (message : string)
| JsValue (v : JsonValue).


(** * INTERNAL__UnknownPackageableElement *)

Module UnknownElement.

(** The element as the class has it: [path], read from the base class
    [PackageableElement], and [content], the raw payload. *)
Record INTERNAL__UnknownPackageableElement : Type := mkUnknown {
  path : string;
  content : PlainObject
}.

Section Class.

(** [CORE_HASH_STRUCTURE.INTERNAL__UNKNOWN_PACKAGEABLE_ELEMENT], a constant
    of [Core_HashUtils]. *)
Variable INTERNAL__UNKNOWN_PACKAGEABLE_ELEMENT : string.

(** The elements of the other kinds, each kind with a method of its own in
    the visitor interface. *)
Variable OtherKind : Type.
Variable OtherElement : Type.

(** [PackageableElementVisitor<T>]: one method per kind of element. *)
Record PackageableElementVisitor (T : Type) : Type := mkVisitor {
  visit_INTERNAL__UnknownPackageableElement :
    INTERNAL__UnknownPackageableElement -> Completion Thrown T;
  visit_OtherElement : OtherKind -> OtherElement -> Completion Thrown T
}.

(** A method of a visitor together with the element it is applied to. *)
Inductive VisitorInvocation : Type :=
| Visit_INTERNAL__UnknownPackageableElement
    (element : INTERNAL__UnknownPackageableElement)
| Visit_OtherElement (kind : OtherKind) (element : OtherElement).

Definition dispatch {T} (visitor : PackageableElementVisitor T)
           (m : VisitorInvocation) : Completion Thrown T :=
  match m with
  | Visit_INTERNAL__UnknownPackageableElement element =>
      visit_INTERNAL__UnknownPackageableElement visitor element
  | Visit_OtherElement kind element =>
      visit_OtherElement visitor kind element
  end.

(** What the class calls: the two hash helpers it imports and the methods of
    the visitor it is handed. *)
Inductive ElementCall : Type -> Type :=
| hashArray (arr : list string) : ElementCall string
| hashObjectWithoutSourceInformation (val : PlainObject) : ElementCall string
| visitorMethod (T : Type) (visitor : PackageableElementVisitor T)
                (m : VisitorInvocation) : ElementCall T.

Definition Method (A : Type) : Type :=
  Prog INTERNAL__UnknownPackageableElement ElementCall Thrown A.

(** [protected override get _elementHashCode(): string] *)
Definition _elementHashCode : Method string :=
  p <- gets path;;
  c <- gets content;;
  h <- call (hashObjectWithoutSourceInformation c);;
  call (hashArray [INTERNAL__UNKNOWN_PACKAGEABLE_ELEMENT; p; h]).

(** [accept_PackageableElementVisitor<T>(visitor)] *)
Definition accept_PackageableElementVisitor {T}
           (visitor : PackageableElementVisitor T) : Method T :=
  this <- gets (fun this => this);;
  call (visitorMethod visitor (Visit_INTERNAL__UnknownPackageableElement this)).

(** The two helpers the getter imports, [hashArray] of legend-shared and
    [hashObjectWithoutSourceInformation] of [Core_HashUtils]: functions of
    their argument, which return a string or throw. *)
Record HashUtils : Type := mkHashUtils {
  hashArray_impl : list string -> Completion Thrown string;
  hashObjectWithoutSourceInformation_impl :
    PlainObject -> Completion Thrown string
}.

Definition collaborators (u : HashUtils) : Handler ElementCall Thrown :=
  fun R c =>
    match c in ElementCall R return Completion Thrown R with
    | hashArray arr => hashArray_impl u arr
    | hashObjectWithoutSourceInformation val =>
        hashObjectWithoutSourceInformation_impl u val
    | visitorMethod visitor m => dispatch visitor m
    end.

(** A method run on the element [this]. *)
Definition perform {A} (u : HashUtils) (m : Method A)
           (this : INTERNAL__UnknownPackageableElement) :
  Outcome INTERNAL__UnknownPackageableElement ElementCall Thrown A :=
  run (pureEnv (collaborators u)) m this.

(** An environment in which the two hash helpers answer as [u] does: by a
    function of their argument, whatever else the environment holds. *)
Definition answersAs (u : HashUtils)
           (env : Env INTERNAL__UnknownPackageableElement ElementCall Thrown) :
  Prop :=
  (forall arr this,
      fst (env _ (hashArray arr) this) = hashArray_impl u arr)
  /\ (forall val this,
         fst (env _ (hashObjectWithoutSourceInformation val) this)
         = hashObjectWithoutSourceInformation_impl u val).

(** An environment in which the two hash helpers do not write to the
    element. *)
Definition leavesElement
           (env : Env INTERNAL__UnknownPackageableElement ElementCall Thrown) :
  Prop :=
  (forall arr this, snd (env _ (hashArray arr) this) = this)
  /\ (forall val this,
         snd (env _ (hashObjectWithoutSourceInformation val) this) = this).

(** The visitor methods a run has invoked, in order. *)
Definition visitorInvocations
           (tr : list (Event ElementCall Thrown)) : list VisitorInvocation :=
  flat_map (fun e =>
              match e with
              | Ev c _ =>
                  match c with
                  | visitorMethod _ m => [m]
                  | _ => []
                  end
              end) tr.

(** The arrays a run has handed to [hashArray], in order. *)
Definition hashedArrays
           (tr : list (Event ElementCall Thrown)) : list (list string) :=
  flat_map (fun e =>
              match e with
              | Ev c _ =>
                  match c with
                  | hashArray arr => [arr]
                  | _ => []
                  end
              end) tr.

End Class.

Arguments hashArray {OtherKind OtherElement} arr.
Arguments hashObjectWithoutSourceInformation {OtherKind OtherElement} val.
Arguments Visit_INTERNAL__UnknownPackageableElement {OtherKind OtherElement} element.

(** ** Source information

    [hashObjectWithoutSourceInformation] is not part of the sources at hand.
    The keys that carry source information are a parameter. *)

Section SourceInformation.

Variable isSourceInformationKey : string -> bool.

(** Modelled from the spec: [hashObjectWithoutSourceInformation] is missing
    from the sources; the spec has it hash "its semantic content with all
    source-position/diagnostic information stripped".  This is the
    stripping: at every depth, the fields whose key carries source
    information are dropped. *)
Fixpoint stripSourceInformation (v : JsonValue) : JsonValue :=
  match v with
  | JArray items => JArray (map stripSourceInformation items)
  | JObject fields =>
      JObject
        ((fix strip (l : list (string * JsonValue)) : list (string * JsonValue) :=
            match l with
            | [] => []
            | (k, x) :: r =>
                if isSourceInformationKey k then strip r
                else (k, stripSourceInformation x) :: strip r
            end) fields)
  | _ => v
  end.

Fixpoint stripFields (l : PlainObject) : PlainObject :=
  match l with
  | [] => []
  | (k, x) :: r =>
      if isSourceInformationKey k then stripFields r
      else (k, stripSourceInformation x) :: stripFields r
  end.

(** Modelled from the spec: [hashObjectWithoutSourceInformation] is missing
    from the sources; it is the structural hash [hashObject] of the content
    "with all source-position/diagnostic information stripped". *)
Definition hashObjectWithoutSourceInformation_spec
           (hashObject : PlainObject -> Completion Thrown string)
           (val : PlainObject) : Completion Thrown string :=
  hashObject (stripFields val).

Definition specHashUtils
           (hashArrayFn : list string -> Completion Thrown string)
           (hashObject : PlainObject -> Completion Thrown string) : HashUtils :=
  mkHashUtils hashArrayFn (hashObjectWithoutSourceInformation_spec hashObject).

(** Two payloads that differ only in source information: the same value up
    to the fields whose key carries source information, which either side
    may have, lack, or have with another value. *)
Inductive sameButSource : JsonValue -> JsonValue -> Prop :=
| same_null : sameButSource JNull JNull
| same_bool b : sameButSource (JBool b) (JBool b)
| same_number n : sameButSource (JNumber n) (JNumber n)
| same_string s : sameButSource (JString s) (JString s)
| same_array xs ys :
    sameItems xs ys -> sameButSource (JArray xs) (JArray ys)
| same_object fs gs :
    sameFields fs gs -> sameButSource (JObject fs) (JObject gs)
with sameItems : list JsonValue -> list JsonValue -> Prop :=
| items_nil : sameItems [] []
| items_cons x y xs ys :
    sameButSource x y -> sameItems xs ys -> sameItems (x :: xs) (y :: ys)
with sameFields : PlainObject -> PlainObject -> Prop :=
| fields_nil : sameFields [] []
| fields_source_left k x fs gs :
    isSourceInformationKey k = true ->
    sameFields fs gs -> sameFields ((k, x) :: fs) gs
| fields_source_right k y fs gs :
    isSourceInformationKey k = true ->
    sameFields fs gs -> sameFields fs ((k, y) :: gs)
| fields_same_key k x y fs gs :
    isSourceInformationKey k = false ->
    sameButSource x y ->
    sameFields fs gs -> sameFields ((k, x) :: fs) ((k, y) :: gs).

Scheme sameButSource_mut := Induction for sameButSource Sort Prop
  with sameItems_mut := Induction for sameItems Sort Prop
  with sameFields_mut := Induction for sameFields Sort Prop.
Combined Scheme sameButSource_mutind
  from sameButSource_mut, sameItems_mut, sameFields_mut.

(** [content[key] = value]: the field is replaced where the key exists and
    added at the end where it does not. *)
Fixpoint setField (key : string) (value : JsonValue) (o : PlainObject) : PlainObject :=
  match o with
  | [] => [(key, value)]
  | (k, x) :: r =>
      if String.eqb k key then (k, value) :: r
      else (k, x) :: setField key value r
  end.

End SourceInformation.

(** ** Ingestion *)

Section Ingestion.

Variable OtherKind : Type.
Variable OtherElement : Type.

(** An element of the graph: of a kind the build knows, or the fallback. *)
Inductive PackageableElement : Type :=
| Known (kind : OtherKind) (element : OtherElement)
| Unknown (element : INTERNAL__UnknownPackageableElement).

(** The discriminator of a payload, the variants the build knows, each with
    its own deserializer and serializer, and the path a payload names. *)
Variable discriminator : PlainObject -> string.
Variable knownVariant :
  string -> option (OtherKind * (PlainObject -> Completion Thrown OtherElement)).
Variable serializeKnown : OtherKind -> OtherElement -> PlainObject.
Variable elementPath : PlainObject -> string.

(** Modelled from the spec: the deserializer is missing from the sources;
    "when no known variant matches the payload's discriminator, it must
    construct the unknown-element fallback with the raw payload attached
    verbatim". *)
Definition deserialize (payload : PlainObject) :
  Completion Thrown PackageableElement :=
  match knownVariant (discriminator payload) with
  | Some (kind, build) =>
      match build payload with
      | Normal element => Normal (Known kind element)
      | Abrupt e => Abrupt e
      end
  | None => Normal (Unknown (mkUnknown (elementPath payload) payload))
  end.

(** Modelled from the spec: the serializer is missing from the sources; the
    fallback "preserves the original raw content as an opaque structured
    payload ([content])", which is what it is serialized to. *)
Definition serialize (e : PackageableElement) : PlainObject :=
  match e with
  | Known kind element => serializeKnown kind element
  | Unknown element => content element
  end.

End Ingestion.

End UnknownElement.

(** * ServiceRegisterModal *)

Module ServiceRegisterModal.

(** ** The registration state

    [ActionState] of legend-shared is not part of the sources at hand.  The
    component uses five of its members: [ActionState.create()], the
    [isInProgress] getter, [inProgress()], [reset()] and [setMessage()].
    They are taken as an interface: a fresh state is not in progress,
    [inProgress()] makes the state in progress, [reset()] makes it not in
    progress, and [setMessage(val)] sets the message and nothing else.  The
    object is created once ([useState(ActionState.create())]) and shared by
    every invocation of [registerService]. *)
Class ActionStateApi (ActionState : Type) : Type := {
  create : ActionState;
  isInProgress : ActionState -> bool;
  message : ActionState -> option string;
  inProgress : ActionState -> ActionState;
  reset : ActionState -> ActionState;
  setMessage : option string -> ActionState -> ActionState;
  isInProgress_create : isInProgress create = false;
  isInProgress_inProgress : forall s, isInProgress (inProgress s) = true;
  isInProgress_reset : forall s, isInProgress (reset s) = false;
  isInProgress_setMessage :
    forall val s, isInProgress (setMessage val s) = isInProgress s;
  message_setMessage : forall val s, message (setMessage val s) = val
}.

(** The interface as a record of the two things the component observes. *)
Record ActionStateRecord : Type := mkActionState {
  inProgressFlag : bool;
  currentMessage : option string
}.

#[global] Instance ActionStateRecord_api : ActionStateApi ActionStateRecord := {|
  create := mkActionState false None;
  isInProgress := inProgressFlag;
  message := currentMessage;
  inProgress := fun s => mkActionState true (currentMessage s);
  reset := fun s => mkActionState false (currentMessage s);
  setMessage := fun val s => mkActionState (inProgressFlag s) val;
  isInProgress_create := eq_refl;
  isInProgress_inProgress := fun _ => eq_refl;
  isInProgress_reset := fun _ => eq_refl;
  isInProgress_setMessage := fun _ _ => eq_refl;
  message_setMessage := fun _ _ => eq_refl
|}.

(** ** Data *)

Inductive ServiceExecutionMode : Type :=
| SEMI_INTERACTIVE
| OtherServiceExecutionMode (name : string).

Inductive ActionAlertType : Type :=
| STANDARD
| OtherActionAlertType (name : string).

Inductive ActionAlertActionType : Type :=
| PROCEED
| PROCEED_WITH_CAUTION
| OtherActionAlertActionType (name : string).

Inductive LEGEND_STUDIO_APP_EVENT : Type :=
| SERVICE_REGISTRATION_FAILURE
| OtherAppEvent (name : string).

(** The fields of [ProjectData] the action reads. *)
Record ProjectData : Type := mkProjectData {
  groupId : string;
  artifactId : string
}.

(** The fields of the query information the action reads. *)
Record QueryInfo : Type := mkQueryInfo {
  content : string;
  mapping : string;
  runtime : string
}.

Record ServiceRegistrationResult : Type := mkServiceRegistrationResult {
  serviceInstanceId : string;
  pattern : string
}.

(** An entry of [TEMPORARY__serviceRegistrationConfig]. *)
Record ServiceRegistrationEnvironmentConfig : Type := mkEnvironmentConfig {
  env : string;
  modes : list ServiceExecutionMode;
  managementUrl : string
}.

(** [editorStore.query] *)
Record Query : Type := mkQuery {
  query_id : string;
  query_groupId : string;
  query_artifactId : string
}.

(** An option of the execution-server selector. *)
Record SelectOption : Type := mkSelectOption {
  label : string;
  value : string
}.

(** The handler of the "Launch Service" action:
    [visitAddress(generateServiceManagementUrl(serverUrl, pattern))]. *)
Inductive ActionAlertHandler : Type :=
| VisitServiceManagementUrl (serverUrl servicePattern : string).

Record ActionAlertAction : Type := mkActionAlertAction {
  action_label : string;
  action_type : ActionAlertActionType;
  action_handler : option ActionAlertHandler;
  action_default : bool
}.

Record ActionAlertInfo : Type := mkActionAlertInfo {
  alert_message : string;
  alert_prompt : string;
  alert_type : ActionAlertType;
  alert_actions : list ActionAlertAction
}.

(** The state of the modal a call of [registerService] closes over. *)
Record ModalState : Type := mkModalState {
  serviceEnv : option string;
  servicePath : string;
  activateService : bool;
  servicePattern : string;
  owners : list string;
  isServicePathValid : bool;
  isServiceUrlPatternValid : bool
}.

(** [!s] for a string [s]. *)
Definition isEmptyString (s : string) : bool :=
  match s with
  | EmptyString => true
  | String _ _ => false
  end.

Definition isNull {A} (o : option A) : bool :=
  match o with
  | Some _ => false
  | None => true
  end.

Section Modal.

Context {ActionState : Type} {api : ActionStateApi ActionState}.

(** Objects of the graph the action only passes on. *)
Variable Service : Type.
Variable PureModel : Type.
Variable GraphManagerState : Type.

(** [String.prototype.toUpperCase] and two constants of the application. *)
Variable toUpperCase : string -> string.
Variable LATEST_PROJECT_REVISION : string.
(** What [guaranteeNonNullable] throws on [undefined]. *)
Variable nullableValueError : Thrown.

(** What the action reads of [editorStore]. *)
Record ExistingQueryEditorStore : Type := mkEditorStore {
  query : Query;
  graphManagerState : GraphManagerState;
  graph : PureModel;
  TEMPORARY__serviceRegistrationConfig : list ServiceRegistrationEnvironmentConfig
}.

(** The collaborators of the action. *)
Inductive ModalCall : Type -> Type :=
| depotServerClient_getProject (groupId artifactId : string) :
    ModalCall PlainObject
| ProjectData_fromJson (json : PlainObject) : ModalCall ProjectData
| graphManager_getQueryInfo (queryId : string) : ModalCall QueryInfo
| createServiceElement (servicePath servicePattern : string)
    (owners : list string) (queryContent queryMapping queryRuntime : string)
    (graphManagerState : GraphManagerState) : ModalCall Service
| graphManager_registerService (service : Service) (graph : PureModel)
    (groupId artifactId versionInput serverUrl : string)
    (executionMode : ServiceExecutionMode) :
    ModalCall ServiceRegistrationResult
| graphManager_activateService (serverUrl serviceInstanceId : string) :
    ModalCall unit
| assertNonEmptyString (str message : string) : ModalCall unit
| setActionAlertInfo (info : ActionAlertInfo) : ModalCall unit
| assertErrorThrown (error : Thrown) : ModalCall unit
| log_error (event : LEGEND_STUDIO_APP_EVENT) (error : Thrown) : ModalCall unit
| notifyError (error : Thrown) : ModalCall unit.

(** The calls the action awaits. *)
Definition awaited {R} (c : ModalCall R) : bool :=
  match c with
  | depotServerClient_getProject _ _ => true
  | graphManager_getQueryInfo _ => true
  | createServiceElement _ _ _ _ _ _ _ => true
  | graphManager_registerService _ _ _ _ _ _ _ => true
  | graphManager_activateService _ _ => true
  | _ => false
  end.

Definition Action (A : Type) : Type := Prog ActionState ModalCall Thrown A.

(** [guaranteeNonNullable] of legend-shared: its argument, unless that is
    [null] or [undefined], on which it throws. *)
Definition guaranteeNonNullable {A} (value : option A) : Action A :=
  match value with
  | Some v => Ret v
  | None => Throw nullableValueError
  end.

(** [selectedEnvOption]: [serviceEnv ? { label, value } : null] *)
Definition selectedEnvOption (ui : ModalState) : option SelectOption :=
  match serviceEnv ui with
  | Some e =>
      if isEmptyString e then None
      else Some (mkSelectOption (toUpperCase e) e)
  | None => None
  end.

(** The condition of the guard of [registerService]. *)
Definition guard (registrationInProgress : bool) (ui : ModalState) : bool :=
  registrationInProgress
  || isEmptyString (servicePath ui)
  || isEmptyString (servicePattern ui)
  || negb (isServicePathValid ui)
  || negb (isServiceUrlPatternValid ui)
  || isNull (selectedEnvOption ui).

(** [serverRegistrationOptions.find((option) => option.env ===
    selectedEnvOption.value)?.managementUrl] *)
Definition selectedManagementUrl (store : ExistingQueryEditorStore)
           (selected : SelectOption) : option string :=
  option_map managementUrl
    (find (fun option => String.eqb (env option) (value selected))
          (TEMPORARY__serviceRegistrationConfig store)).

Definition registeredAlert (ui : ModalState) (serverUrl : string)
           (serviceRegistrationResult : ServiceRegistrationResult) :
  ActionAlertInfo :=
  mkActionAlertInfo
    ("Service with pattern " ++ pattern serviceRegistrationResult
      ++ " registered "
      ++ (if activateService ui then "and activated " else ""))
    "You can now launch and monitor the operation of your service"
    STANDARD
    [ mkActionAlertAction "Launch Service" PROCEED
        (Some (VisitServiceManagementUrl serverUrl
                 (pattern serviceRegistrationResult)))
        true;
      mkActionAlertAction "Close" PROCEED_WITH_CAUTION None false ].

(** The [try] block. *)
Definition registration (store : ExistingQueryEditorStore) (ui : ModalState)
           (selected : SelectOption) (project : ProjectData)
           (currentQueryInfo : QueryInfo) : Action unit :=
  modify inProgress;;;
  serverUrl <- guaranteeNonNullable (selectedManagementUrl store selected);;
  let versionInput := LATEST_PROJECT_REVISION in
  modify (setMessage (Some "Registering service..."));;;
  service <- call (createServiceElement (servicePath ui) (servicePattern ui)
                     (owners ui) (content currentQueryInfo)
                     (mapping currentQueryInfo) (runtime currentQueryInfo)
                     (graphManagerState store));;
  serviceRegistrationResult <-
    call (graphManager_registerService service (graph store)
            (groupId project) (artifactId project) versionInput serverUrl
            SEMI_INTERACTIVE);;
  (if activateService ui
   then modify (setMessage (Some "Activating service..."));;;
        call (graphManager_activateService serverUrl
                (serviceInstanceId serviceRegistrationResult))
   else Ret tt);;;
  call (assertNonEmptyString (pattern serviceRegistrationResult)
          "Service registration pattern is missing or empty");;;
  call (setActionAlertInfo (registeredAlert ui serverUrl serviceRegistrationResult)).

(** The [catch] block. *)
Definition registrationFailed (error : Thrown) : Action unit :=
  call (assertErrorThrown error);;;
  call (log_error SERVICE_REGISTRATION_FAILURE error);;;
  call (notifyError error).

(** The [finally] block. *)
Definition registrationDone : Action unit :=
  modify reset;;;
  modify (setMessage None).

(** The asynchronous function [registerService] hands to
    [guardUnhandledError].  After the guard the selected option is known
    not to be [null]. *)
Definition registerService (store : ExistingQueryEditorStore)
           (ui : ModalState) : Action unit :=
  json <- call (depotServerClient_getProject (query_groupId (query store))
                  (query_artifactId (query store)));;
  project <- call (ProjectData_fromJson json);;
  currentQueryInfo <- call (graphManager_getQueryInfo (query_id (query store)));;
  registrationInProgress <- gets isInProgress;;
  if guard registrationInProgress ui then Ret tt
  else
    match selectedEnvOption ui with
    | None => Ret tt
    | Some selected =>
        try_catch_finally
          (registration store ui selected project currentQueryInfo)
          registrationFailed
          registrationDone
    end.

(** *** What a run has called *)

Definition ModalEvent : Type := Event ModalCall Thrown.

(** The server URL and the instance id of every call of
    [graphManager.activateService], in order. *)
Definition activations (tr : list ModalEvent) : list (string * string) :=
  flat_map (fun e =>
              match e with
              | Ev c _ =>
                  match c with
                  | graphManager_activateService url id => [(url, id)]
                  | _ => []
                  end
              end) tr.

(** The server URL of every call of [graphManager.registerService] that
    returned, with the result it returned, in order. *)
Definition registered (tr : list ModalEvent) :
  list (string * ServiceRegistrationResult) :=
  flat_map (fun e =>
              match e with
              | Ev c r =>
                  match c in ModalCall R
                        return Completion Thrown R ->
                               list (string * ServiceRegistrationResult) with
                  | graphManager_registerService _ _ _ _ _ url _ =>
                      fun r => match r with
                               | Normal res => [(url, res)]
                               | Abrupt _ => []
                               end
                  | _ => fun _ => []
                  end r
              end) tr.

Definition isServiceCreation {R} (c : ModalCall R) : bool :=
  match c with
  | createServiceElement _ _ _ _ _ _ _ => true
  | _ => false
  end.

Definition isRegistration {R} (c : ModalCall R) : bool :=
  match c with
  | graphManager_registerService _ _ _ _ _ _ _ => true
  | _ => false
  end.

Definition isActivation {R} (c : ModalCall R) : bool :=
  match c with
  | graphManager_activateService _ _ => true
  | _ => false
  end.

Definition isProjectFetch {R} (c : ModalCall R) : bool :=
  match c with
  | depotServerClient_getProject _ _ => true
  | _ => false
  end.

Definition isQueryInfoFetch {R} (c : ModalCall R) : bool :=
  match c with
  | graphManager_getQueryInfo _ => true
  | _ => false
  end.

(** The collaborator a call goes to, and the calls of a run, in order. *)
Definition callee {R} (c : ModalCall R) : string :=
  match c with
  | depotServerClient_getProject _ _ => "depotServerClient.getProject"
  | ProjectData_fromJson _ => "ProjectData.serialization.fromJson"
  | graphManager_getQueryInfo _ => "graphManager.getQueryInfo"
  | createServiceElement _ _ _ _ _ _ _ => "createServiceElement"
  | graphManager_registerService _ _ _ _ _ _ _ => "graphManager.registerService"
  | graphManager_activateService _ _ => "graphManager.activateService"
  | assertNonEmptyString _ _ => "assertNonEmptyString"
  | setActionAlertInfo _ => "applicationStore.setActionAlertInfo"
  | assertErrorThrown _ => "assertErrorThrown"
  | log_error _ _ => "applicationStore.log.error"
  | notifyError _ => "applicationStore.notifyError"
  end.

Definition callees (tr : list ModalEvent) : list string :=
  map (fun e => match e with Ev c _ => callee c end) tr.

(** Whether a run has made a call of the given sort. *)
Definition called (sort : forall R, ModalCall R -> bool)
           (tr : list ModalEvent) : bool :=
  existsb (fun e => match e with Ev c _ => sort _ c end) tr.

End Modal.

Arguments depotServerClient_getProject {Service PureModel GraphManagerState}.
Arguments ProjectData_fromJson {Service PureModel GraphManagerState}.
Arguments graphManager_getQueryInfo {Service PureModel GraphManagerState}.
Arguments createServiceElement {Service PureModel GraphManagerState}.
Arguments graphManager_registerService {Service PureModel GraphManagerState}.
Arguments graphManager_activateService {Service PureModel GraphManagerState}.
Arguments assertNonEmptyString {Service PureModel GraphManagerState}.
Arguments setActionAlertInfo {Service PureModel GraphManagerState}.
Arguments assertErrorThrown {Service PureModel GraphManagerState}.
Arguments log_error {Service PureModel GraphManagerState}.
Arguments notifyError {Service PureModel GraphManagerState}.
Arguments awaited {Service PureModel GraphManagerState R} c.
Arguments isServiceCreation {Service PureModel GraphManagerState R} c.
Arguments isRegistration {Service PureModel GraphManagerState R} c.
Arguments isActivation {Service PureModel GraphManagerState R} c.
Arguments isProjectFetch {Service PureModel GraphManagerState R} c.
Arguments isQueryInfoFetch {Service PureModel GraphManagerState R} c.
Arguments callee {Service PureModel GraphManagerState R} c.

(** *** More of what a run has called *)

Section Traces.

Variable Service : Type.
Variable PureModel : Type.
Variable GraphManagerState : Type.

Local Abbreviation TraceOf :=
  (list (Event (ModalCall Service PureModel GraphManagerState) Thrown)).

(** The arguments of every call of [createServiceElement], with what the
    call completed with, in order. *)
Definition creations (tr : TraceOf) :
  list (string * string * list string * string * string * string
        * GraphManagerState * Completion Thrown Service) :=
  flat_map (fun e =>
              match e with
              | Ev c r =>
                  match c in ModalCall _ _ _ R
                        return Completion Thrown R -> _ with
                  | createServiceElement path pattern owners content mapping
                      runtime state =>
                      fun r => [(path, pattern, owners, content, mapping,
                                 runtime, state, r)]
                  | _ => fun _ => []
                  end r
              end) tr.

(** The arguments of every call of [graphManager.registerService], in
    order. *)
Definition registrationRequests (tr : TraceOf) :
  list (Service * PureModel * string * string * string * string
        * ServiceExecutionMode) :=
  flat_map (fun e =>
              match e with
              | Ev c _ =>
                  match c with
                  | graphManager_registerService service graph groupId
                      artifactId versionInput serverUrl mode =>
                      [(service, graph, groupId, artifactId, versionInput,
                        serverUrl, mode)]
                  | _ => []
                  end
              end) tr.

(** The projects [ProjectData.serialization.fromJson] has returned. *)
Definition projects (tr : TraceOf) : list ProjectData :=
  flat_map (fun e =>
              match e with
              | Ev c r =>
                  match c in ModalCall _ _ _ R
                        return Completion Thrown R -> list ProjectData with
                  | ProjectData_fromJson _ =>
                      fun r => match r with
                               | Normal project => [project]
                               | Abrupt _ => []
                               end
                  | _ => fun _ => []
                  end r
              end) tr.

(** The query informations [graphManager.getQueryInfo] has returned. *)
Definition queryInfos (tr : TraceOf) : list QueryInfo :=
  flat_map (fun e =>
              match e with
              | Ev c r =>
                  match c in ModalCall _ _ _ R
                        return Completion Thrown R -> list QueryInfo with
                  | graphManager_getQueryInfo _ =>
                      fun r => match r with
                               | Normal info => [info]
                               | Abrupt _ => []
                               end
                  | _ => fun _ => []
                  end r
              end) tr.

(** The alerts [setActionAlertInfo] has been handed and has accepted. *)
Definition shownAlerts (tr : TraceOf) : list ActionAlertInfo :=
  flat_map (fun e =>
              match e with
              | Ev c r =>
                  match c with
                  | setActionAlertInfo info =>
                      if isNormal r then [info] else []
                  | _ => []
                  end
              end) tr.

(** The errors handed to [notifyError], and the errors handed to
    [log.error] with their events. *)
Definition notifications (tr : TraceOf) : list Thrown :=
  flat_map (fun e =>
              match e with
              | Ev c _ =>
                  match c with
                  | notifyError error => [error]
                  | _ => []
                  end
              end) tr.

Definition loggedErrors (tr : TraceOf) :
  list (LEGEND_STUDIO_APP_EVENT * Thrown) :=
  flat_map (fun e =>
              match e with
              | Ev c _ =>
                  match c with
                  | log_error event error => [(event, error)]
                  | _ => []
                  end
              end) tr.

Definition isPatternCheck {R}
           (c : ModalCall Service PureModel GraphManagerState R) : bool :=
  match c with
  | assertNonEmptyString _ _ => true
  | _ => false
  end.

(** Whether a call of the given sort has returned in a run. *)
Definition returned
           (sort : forall R, ModalCall Service PureModel GraphManagerState R -> bool)
           (tr : TraceOf) : bool :=
  existsb (fun e => match e with Ev c r => sort _ c && isNormal r end) tr.

End Traces.

Arguments isPatternCheck {Service PureModel GraphManagerState R} c.

(** ** The handlers of the modal *)

Definition ServiceExecutionMode_eqb (a b : ServiceExecutionMode) : bool :=
  match a, b with
  | SEMI_INTERACTIVE, SEMI_INTERACTIVE => true
  | OtherServiceExecutionMode x, OtherServiceExecutionMode y => String.eqb x y
  | _, _ => false
  end.

(** [modes.includes(mode)] *)
Definition includes (mode : ServiceExecutionMode)
           (modes : list ServiceExecutionMode) : bool :=
  existsb (ServiceExecutionMode_eqb mode) modes.

Section Handlers.

Variable PureModel : Type.
Variable GraphManagerState : Type.
Variable toUpperCase : string -> string.

(** Two validators of legend-graph, which are not part of the sources at
    hand: [isValidFullPath], and whether [validate_ServicePattern] finds an
    issue (returns something truthy). *)
Variable isValidFullPath : string -> bool.
Variable validate_ServicePattern : string -> bool.

(** The state of the modal at its first rendering, [uuid] being what
    [uuid()] of legend-shared returns. *)
Definition initialModalState (uuid : string) : ModalState :=
  mkModalState None "model::QueryService" false ("/" ++ uuid) [] true true.

Definition onUserOptionChange (options : list string) (ui : ModalState) :
  ModalState :=
  mkModalState (serviceEnv ui) (servicePath ui) (activateService ui)
    (servicePattern ui) options (isServicePathValid ui)
    (isServiceUrlPatternValid ui).

Definition onChangeServicePath (value : string) (ui : ModalState) : ModalState :=
  mkModalState (serviceEnv ui) value (activateService ui)
    (servicePattern ui) (owners ui) (isValidFullPath value)
    (isServiceUrlPatternValid ui).

Definition onChangeServicePattern (value : string) (ui : ModalState) :
  ModalState :=
  mkModalState (serviceEnv ui) (servicePath ui) (activateService ui)
    value (owners ui) (isServicePathValid ui)
    (negb (validate_ServicePattern value)).

(** [envOptions] *)
Definition envOptions
           (store : ExistingQueryEditorStore PureModel GraphManagerState) :
  list SelectOption :=
  map (fun info => mkSelectOption (toUpperCase (env info)) (env info))
      (filter (fun options => includes SEMI_INTERACTIVE (modes options))
              (TEMPORARY__serviceRegistrationConfig store)).

(** [setServiceEnv(val?.value)] *)
Definition onServerEnvChange (val : option SelectOption) (ui : ModalState) :
  ModalState :=
  mkModalState (option_map value val) (servicePath ui) (activateService ui)
    (servicePattern ui) (owners ui) (isServicePathValid ui)
    (isServiceUrlPatternValid ui).

Definition toggleActivateService (ui : ModalState) : ModalState :=
  mkModalState (serviceEnv ui) (servicePath ui) (negb (activateService ui))
    (servicePattern ui) (owners ui) (isServicePathValid ui)
    (isServiceUrlPatternValid ui).

(** What the user can do to the modal, and the handler each input runs. *)
Inductive ModalInput : Type :=
| ChangeServicePath (value : string)
| ChangeServicePattern (value : string)
| ChangeOwners (options : list string)
| ChangeServerEnv (val : option SelectOption)
| ToggleActivateService.

Definition handle (input : ModalInput) (ui : ModalState) : ModalState :=
  match input with
  | ChangeServicePath value => onChangeServicePath value ui
  | ChangeServicePattern value => onChangeServicePattern value ui
  | ChangeOwners options => onUserOptionChange options ui
  | ChangeServerEnv val => onServerEnvChange val ui
  | ToggleActivateService => toggleActivateService ui
  end.

(** The modal after a sequence of inputs, each on the state the one before
    has left. *)
Definition afterInputs (inputs : list ModalInput) (ui : ModalState) : ModalState :=
  fold_left (fun state input => handle input state) inputs ui.

(** The validity flags say what the validators say of the current path and
    pattern. *)
Definition flagsInSync (ui : ModalState) : Prop :=
  isServicePathValid ui = isValidFullPath (servicePath ui)
  /\ isServiceUrlPatternValid ui
     = negb (validate_ServicePattern (servicePattern ui)).

End Handlers.

(** ** Invocations in the event loop *)

Section EventLoop.

Context {ActionState : Type} {api : ActionStateApi ActionState}.

Variable Service : Type.
Variable PureModel : Type.
Variable GraphManagerState : Type.
Variable toUpperCase : string -> string.
Variable LATEST_PROJECT_REVISION : string.
Variable nullableValueError : Thrown.

Local Abbreviation LoopCall := (ModalCall Service PureModel GraphManagerState).
Local Abbreviation Invocation := (Task ActionState LoopCall Thrown unit).

(** Whether an invocation awaits one of the three calls of the [try]
    block. *)
Definition awaitsRegistrationStep (t : Invocation) : bool :=
  match t with
  | Settled _ => false
  | Awaiting c _ => isServiceCreation c || isRegistration c || isActivation c
  end.

(** What happens to one mounted modal: a click on "Register Service", with
    the state of the modal at that moment, starts an invocation; an awaited
    call of the [i]-th invocation settles, and the invocation runs on to its
    next [await].  Each step comes with what the collaborators answer in
    it. *)
Inductive LoopStep : Type :=
| Click (ui : ModalState) (h : Handler LoopCall Thrown)
| Settle (i : nat) (h : Handler LoopCall Thrown).

Definition loopStep
           (store : ExistingQueryEditorStore PureModel GraphManagerState)
           (ps : list Invocation * ActionState)
           (e : LoopStep) : list Invocation * ActionState :=
  match e with
  | Click ui h =>
      let (t, s) :=
        advance (@awaited Service PureModel GraphManagerState) h
          (registerService Service toUpperCase LATEST_PROJECT_REVISION
             nullableValueError store ui) (snd ps) in
      (fst ps ++ [t], s)
  | Settle i h =>
      match nth_error (fst ps) i with
      | Some t =>
          let (t', s) :=
            resume (@awaited Service PureModel GraphManagerState) h t (snd ps) in
          (replaceNth i t' (fst ps), s)
      | None => ps
      end
  end.

(** [ServiceRegisterAction]: whether the modal is shown, and the modals
    mounted so far, the last of them being the one on screen when one is
    shown.  Every mounted modal has a registration state of its own
    ([useState(ActionState.create())]) and the invocations started from it,
    which go on when the modal is closed. *)
Record Rendered : Type := mkRendered {
  showRegisterServiceModal : bool;
  modals : list (list Invocation * ActionState)
}.

(** What happens in the event loop: [registerCurrentQuery] shows the modal,
    which mounts a new one unless one is shown; [onClose] hides it; a step
    of the [m]-th modal. *)
Inductive ActionStep : Type :=
| RegisterCurrentQuery
| OnClose
| InModal (m : nat) (e : LoopStep).

(** The [m]-th modal is the one on screen. *)
Definition onScreen (st : Rendered) (m : nat) : bool :=
  showRegisterServiceModal st && Nat.eqb (S m) (List.length (modals st)).

(** Only the modal on screen can be clicked; an awaited call settles
    whether its modal is still shown or not. *)
Definition actionStep
           (store : ExistingQueryEditorStore PureModel GraphManagerState)
           (st : Rendered) (e : ActionStep) : Rendered :=
  match e with
  | RegisterCurrentQuery =>
      if showRegisterServiceModal st then st
      else mkRendered true (modals st ++ [([], create)])
  | OnClose => mkRendered false (modals st)
  | InModal m e' =>
      match nth_error (modals st) m with
      | Some modal =>
          if match e' with
             | Click _ _ => onScreen st m
             | Settle _ _ => true
             end
          then mkRendered (showRegisterServiceModal st)
                 (replaceNth m (loopStep store modal e') (modals st))
          else st
      | None => st
      end
  end.

(** The modals after a sequence of steps, from the first rendering of
    [ServiceRegisterAction], with no modal shown. *)
Definition eventLoop
           (store : ExistingQueryEditorStore PureModel GraphManagerState)
           (steps : list ActionStep) : Rendered :=
  fold_left (actionStep store) steps (mkRendered false []).

(** What the modal shows of the registration state while a call is awaited:
    during the two fetches the state is the one the invocation started in;
    during the creation and the registration of the service a registration
    is in progress with the message "Registering service...", and during
    the activation with the message "Activating service...". *)
Definition shownWhileAwaiting (start : ActionState)
           (entry : Event LoopCall Thrown * ActionState) : Prop :=
  match fst entry with
  | Ev c _ =>
      if isServiceCreation c || isRegistration c
      then isInProgress (snd entry) = true
           /\ message (snd entry) = Some "Registering service..."
      else if isActivation c
           then isInProgress (snd entry) = true
                /\ message (snd entry) = Some "Activating service..."
           else snd entry = start
  end.

Unset Elimination Schemes.

(** An invocation inside the [try] block: it awaits one of the three calls
    of the block, and, resumed while the registration is in progress, it
    either awaits the next of them, the registration still in progress, or
    settles and leaves the registration not in progress. *)
Inductive Registering : Invocation -> Prop :=
| registering R (c : LoopCall R) k :
    isServiceCreation c || isRegistration c || isActivation c = true ->
    (forall h r s,
        isInProgress s = true ->
        let t' := fst (advance (@awaited Service PureModel GraphManagerState)
                         h (k r) s) in
        let s' := snd (advance (@awaited Service PureModel GraphManagerState)
                         h (k r) s) in
        (Registering t' /\ isInProgress s' = true)
        \/ (awaitsRegistrationStep t' = false /\ (exists r', t' = Settled r')
            /\ isInProgress s' = false)) ->
    Registering (Awaiting c k).

(** An invocation before the [try] block: it has settled, or it awaits one
    of the two fetches, and, resumed, it stays before the block and leaves
    the state as it is, or finds no registration in progress and either
    settles with none in progress or enters the block and has one in
    progress. *)
Inductive Fetching : Invocation -> Prop :=
| fetching_settled r : Fetching (Settled r)
| fetching R (c : LoopCall R) k :
    isServiceCreation c || isRegistration c || isActivation c = false ->
    (forall h r s,
        let t' := fst (advance (@awaited Service PureModel GraphManagerState)
                         h (k r) s) in
        let s' := snd (advance (@awaited Service PureModel GraphManagerState)
                         h (k r) s) in
        (Fetching t' /\ s' = s)
        \/ (isInProgress s = false /\ (exists r', t' = Settled r')
            /\ isInProgress s' = false)
        \/ (isInProgress s = false /\ Registering t'
            /\ isInProgress s' = true)) ->
    Fetching (Awaiting c k).

Set Elimination Schemes.

(** What the event loop keeps of a mounted modal: every invocation is
    before or inside the [try] block, and the invocations inside are one
    when the registration is in progress and none when it is not. *)
Definition loopInvariant (ps : list Invocation * ActionState) : Prop :=
  Forall (fun t => Fetching t \/ Registering t) (fst ps)
  /\ List.length (filter awaitsRegistrationStep (fst ps))
     = (if isInProgress (snd ps) then 1 else 0)%nat.

End EventLoop.

Arguments awaitsRegistrationStep {ActionState Service PureModel GraphManagerState} t.
Arguments shownWhileAwaiting {ActionState api Service PureModel GraphManagerState}
  start entry.
Arguments loopInvariant {ActionState api Service PureModel GraphManagerState} ps.


End ServiceRegisterModal.

(** * Concrete instances

    Small instances of what the embedding leaves open (hash helpers, a
    visitor, a deserializer, the collaborators of the modal), on which the
    statements below are evaluated. *)

Module Samples.

Import UnknownElement.

Definition lookupField (key : string) (o : PlainObject) : option JsonValue :=
  option_map snd (find (fun kv => String.eqb (fst kv) key) o).

Definition stringField (key : string) (o : PlainObject) : string :=
  match lookupField key o with
  | Some (JString s) => s
  | _ => ""
  end.

(** Hash helpers that return the text they would digest: the components
    of an array, and the keys of an object. *)
Definition joinArray (arr : list string) : Completion Thrown string :=
  Normal (String.concat "," arr).

Definition keysOf (val : PlainObject) : Completion Thrown string :=
  Normal (String.concat ";" (map fst val)).

Definition joinHashUtils : HashUtils := mkHashUtils joinArray keysOf.

Definition isSourceInformation (key : string) : bool :=
  String.eqb key "sourceInformation".

(** The element of the spec's example, and the same element with a source
    annotation attached. *)
Definition fooElement : INTERNAL__UnknownPackageableElement :=
  mkUnknown "model::Foo" [("bar", JNumber 1%float)].

Definition fooElementAnnotated : INTERNAL__UnknownPackageableElement :=
  mkUnknown "model::Foo"
    [("bar", JNumber 1%float);
     ("sourceInformation", JObject [("startLine", JNumber 3%float)])].

(** A visitor that names what it visits. *)
Definition namingVisitor : PackageableElementVisitor unit string string :=
  mkVisitor (fun element => Normal ("unknown " ++ path element)%string)
            (fun _ name => Normal ("known " ++ name)%string).

(** A visitor that has no case for the fallback. *)
Definition unsupportingVisitor : PackageableElementVisitor unit string string :=
  mkVisitor (fun element => Abrupt (JsError "Unsupported element"))
            (fun _ name => Normal ("known " ++ name)%string).

(** The helpers of [joinHashUtils] in an environment where every method of
    every visitor throws. *)
Definition joinHashUtilsOnly :
  Handler (ElementCall unit string) Thrown :=
  fun R c =>
    match c in ElementCall _ _ R return Completion Thrown R with
    | visitorMethod _ _ => Abrupt (JsError "no visitor")
    | c' => collaborators joinHashUtils c'
    end.

(** A deserializer that knows one kind, ["class"]. *)
Definition typeOf (payload : PlainObject) : string :=
  stringField "_type" payload.

Definition onlyClasses (kind : string) :
  option (unit * (PlainObject -> Completion Thrown string)) :=
  if String.eqb kind "class"
  then Some (tt, fun payload => Normal (stringField "name" payload))
  else None.

Definition classPayload (_ : unit) (name : string) : PlainObject :=
  [("_type", JString "class"); ("name", JString name)].

Definition pathOf (payload : PlainObject) : string :=
  (stringField "package" payload ++ "::" ++ stringField "name" payload)%string.

Definition futurePayload : PlainObject :=
  [("_type", JString "dataProduct"); ("package", JString "model");
   ("name", JString "Foo"); ("bar", JNumber 1%float)].

Import ServiceRegisterModal.

Definition SampleCall : Type -> Type := ModalCall unit unit unit.

Definition sampleStore : ExistingQueryEditorStore unit unit :=
  mkEditorStore (mkQuery "query-1" "org.example" "demo") tt tt
    [mkEnvironmentConfig "dev" [SEMI_INTERACTIVE] "https://dev.example/manage"].

Definition sampleUi : ModalState :=
  mkModalState (Some "dev") "model::QueryService" false "/my-service" [] true true.

(** The same modal with the activation toggle on. *)
Definition sampleUiActivating : ModalState :=
  mkModalState (Some "dev") "model::QueryService" true "/my-service" [] true true.

(** The same modal with the service path erased. *)
Definition sampleUiNoPath : ModalState :=
  mkModalState (Some "dev") "" false "/my-service" [] true true.

Definition sampleProjectJson : PlainObject :=
  [("groupId", JString "org.example"); ("artifactId", JString "demo")].

Definition sampleProject : ProjectData := mkProjectData "org.example" "demo".

Definition sampleQueryInfo : QueryInfo :=
  mkQueryInfo "|model::Person.all()" "model::Mapping" "model::Runtime".

(** Collaborators that all return. *)
Definition allReturn : Handler SampleCall Thrown :=
  fun R c =>
    match c in ModalCall _ _ _ R return Completion Thrown R with
    | depotServerClient_getProject _ _ => Normal sampleProjectJson
    | ProjectData_fromJson json =>
        Normal (mkProjectData (stringField "groupId" json)
                              (stringField "artifactId" json))
    | graphManager_getQueryInfo _ => Normal sampleQueryInfo
    | createServiceElement _ _ _ _ _ _ _ => Normal tt
    | graphManager_registerService _ _ _ _ _ _ _ =>
        Normal (mkServiceRegistrationResult "instance-1" "/my-service")
    | graphManager_activateService _ _ => Normal tt
    | assertNonEmptyString _ _ => Normal tt
    | setActionAlertInfo _ => Normal tt
    | assertErrorThrown _ => Normal tt
    | log_error _ _ => Normal tt
    | notifyError _ => Normal tt
    end.

(** The graph manager rejects the registration. *)
Definition registrationRejected : Handler SampleCall Thrown :=
  fun R c =>
    if isRegistration c then Abrupt (JsError "the pattern is taken")
    else allReturn c.

(** The service cannot be created, what is thrown is no [Error], and
    [assertErrorThrown] throws in turn. *)
Definition catchBlockThrows : Handler SampleCall Thrown :=
  fun R c =>
    if isServiceCreation c then Abrupt (JsValue (JString "no mapping"))
    else
      match c in ModalCall _ _ _ R return Completion Thrown R with
      | assertErrorThrown _ => Abrupt (JsError "Expected error to be thrown")
      | c' => allReturn c'
      end.

(** [toUpperCase], on ASCII letters. *)
Definition upperAscii (c : ascii) : ascii :=
  let n := nat_of_ascii c in
  if Nat.leb 97 n && Nat.leb n 122 then ascii_of_nat (n - 32) else c.

Fixpoint upper (s : string) : string :=
  match s with
  | EmptyString => EmptyString
  | String c r => String (upperAscii c) (upper r)
  end.

Definition sampleRegisterService (ui : ModalState) :
  Prog ActionStateRecord SampleCall Thrown unit :=
  registerService unit upper "latest" (JsError "the value is null")
    sampleStore ui.

Definition freshState : ActionStateRecord := create.

(** A click starts the action as a task; a step resumes a task whose awaited
    call has settled. *)
Definition SampleTask : Type := Task ActionStateRecord SampleCall Thrown unit.

Definition click (s : ActionStateRecord) : SampleTask * ActionStateRecord :=
  advance (@awaited unit unit unit) allReturn (sampleRegisterService sampleUi) s.

Definition settle (t : SampleTask) (s : ActionStateRecord) :
  SampleTask * ActionStateRecord :=
  resume (@awaited unit unit unit) allReturn t s.

(** A first click on "Register Service": the action starts on the fresh
    registration state, awaits the project, and is resumed once, so that it
    now awaits the query information. *)
Definition firstClick : SampleTask * ActionStateRecord :=
  let (atProject, s) := click freshState in
  settle atProject s.

(** What a second click meets: every collaborator returns, and while the
    second invocation awaits the project, the first one is resumed and runs
    up to its next [await]. *)
Definition duringFirstClick : Env ActionStateRecord SampleCall Thrown :=
  fun R c s =>
    (allReturn c,
     if isProjectFetch c then snd (settle (fst firstClick) s) else s).

(** The two clicks as tasks of the event loop: the first invocation [a] and
    the second invocation [b] are advanced from one [await] to the next, in
    the order in which their calls settle.  The result is the second
    invocation and the state it ends in. *)
Definition twoClicks : SampleTask * ActionStateRecord :=
  let (a1, s1) := click freshState in          (* a awaits the project *)
  let (a2, s2) := settle a1 s1 in              (* a awaits the query info *)
  let (b1, s3) := click s2 in                  (* b awaits the project *)
  let (a3, s4) := settle a2 s3 in              (* a awaits the new service *)
  let (b2, s5) := settle b1 s4 in              (* b awaits the query info *)
  settle b2 s5.                                (* b reaches its guard *)

(** The same store with no environment configured. *)
Definition unconfiguredStore : ExistingQueryEditorStore unit unit :=
  mkEditorStore (mkQuery "query-1" "org.example" "demo") tt tt [].

(** The depot server does not answer. *)
Definition projectUnavailable : Handler SampleCall Thrown :=
  fun R c =>
    if isProjectFetch c then Abrupt (JsError "Service Unavailable")
    else allReturn c.

(** Validators for the samples: a path is valid when it is not empty, and
    a pattern has an issue unless it starts with a slash. *)
Definition nonEmptyPath (path : string) : bool := negb (isEmptyString path).

Definition patternIssue (pattern : string) : bool :=
  negb (String.prefix "/" pattern).

Definition devOption : SelectOption := mkSelectOption "DEV" "dev".

(** The user erases the path, switches activation on, selects the
    environment and types a path again. *)
Definition sampleInputs : list ModalInput :=
  [ChangeServicePath ""; ToggleActivateService;
   ChangeServerEnv (Some devOption); ChangeServicePath "model::MyService"].

(** The modal is opened and a registration is started, which reaches the
    [try] block; the modal is closed and opened again, and a registration is
    started from the new modal, which reaches the [try] block too. *)
Definition reopenedDuringRegistration : list (ActionStep unit unit unit) :=
  [RegisterCurrentQuery _ _ _;
   InModal 0 (Click sampleUi allReturn);
   InModal 0 (Settle 0 allReturn);
   InModal 0 (Settle 0 allReturn);
   OnClose _ _ _;
   RegisterCurrentQuery _ _ _;
   InModal 1 (Click sampleUi allReturn);
   InModal 1 (Settle 0 allReturn);
   InModal 1 (Settle 0 allReturn)].

End Samples.

(** One step of a run: the next call is answered, normally or not. *)
Ltac answer env :=
  match goal with
  | |- context [env ?R ?c ?s] =>
      let r := fresh "r" in
      let e := fresh "e" in
      let s' := fresh "s" in
      destruct (env R c s) as [[r | e] s']; simpl
  end.

(** The same step, the value the call returns under a given name. *)
Ltac answer_as env r :=
  match goal with
  | |- context [env ?R ?c ?s] =>
      let e := fresh "e" in
      let s' := fresh "s" in
      destruct (env R c s) as [[r | e] s']; simpl
  end.

(** The same step, with the equation of the answer kept. *)
Ltac answered env :=
  match goal with
  | |- context [env ?R ?c ?s] =>
      let r := fresh "r" in
      let e := fresh "e" in
      let s' := fresh "s" in
      let H := fresh "Hcall" in
      destruct (env R c s) as [[r | e] s'] eqn:H; simpl
  end.

(** A call of the [catch] block that is assumed to return has not thrown. *)
Ltac returns Hassert Hlog Hnotify :=
  match goal with
  | Hcall : _ _ (ServiceRegisterModal.assertErrorThrown ?a) ?s = (Abrupt _, _)
    |- _ =>
      let H := fresh in
      pose proof (Hassert a s) as H; rewrite Hcall in H; discriminate H
  | Hcall : _ _ (ServiceRegisterModal.log_error ?a ?b) ?s = (Abrupt _, _)
    |- _ =>
      let H := fresh in
      pose proof (Hlog a b s) as H; rewrite Hcall in H; discriminate H
  | Hcall : _ _ (ServiceRegisterModal.notifyError ?a) ?s = (Abrupt _, _)
    |- _ =>
      let H := fresh in
      pose proof (Hnotify a s) as H; rewrite Hcall in H; discriminate H
  end.

Ltac units := repeat match goal with u : unit |- _ => destruct u end.

(** One step of a task: the next call is answered by the handler. *)
Ltac reply h :=
  match goal with
  | |- context [h ?R ?c] =>
      let r := fresh "r" in
      let e := fresh "e" in
      destruct (h R c) as [r | e]; simpl
  end.

(** Whether a registration is in progress, by the laws of the interface. *)
Ltac busy :=
  repeat first [ rewrite ServiceRegisterModal.isInProgress_setMessage
               | rewrite ServiceRegisterModal.isInProgress_inProgress
               | rewrite ServiceRegisterModal.isInProgress_reset ];
  try reflexivity; try assumption.

(** An invocation that has settled after the [finally] block. *)
Ltac done_settled :=
  right; split; [reflexivity | split; [eexists; reflexivity | busy]].

(** * Properties of programs *)

Unset Implicit Arguments.

Section ProgramFacts.

Variable St : Type.
Variable Call : Type -> Type.
Variable Thrown : Type.
Variable env : Env St Call Thrown.

(** Sequencing: the second program starts in the state the first one ends
    in, and is not run when the first one throws. *)
Lemma run_bind :
  forall A B (p : Prog St Call Thrown A) (f : A -> Prog St Call Thrown B) s,
    run env (bind p f) s =
      match result (run env p s) with
      | Normal a =>
          let o := run env (f a) (final (run env p s)) in
          mkOutcome (result o) (final o) (trace (run env p s) ++ trace o)
      | Abrupt e =>
          mkOutcome (Abrupt e) (final (run env p s)) (trace (run env p s))
      end.
Proof.
  intros A B p f.
  induction p as [a | e | k IH | s' k IH | R c k IH]; intro s; simpl.
  - destruct (run env (f a) s); reflexivity.
  - reflexivity.
  - apply IH.
  - apply IH.
  - destruct (env R c s) as [r s1]. unfold logged. rewrite IH.
    destruct (result (run env (k r) s1)); reflexivity.
Qed.

(** Whatever the protected block does, the state at the end is one the
    [finally] block leaves. *)
Lemma final_try_finally :
  forall (P : St -> Prop) (f : Prog St Call Thrown unit),
    (forall s, P (final (run env f s))) ->
    forall A (p : Prog St Call Thrown A) s,
      P (final (run env (try_finally p f) s)).
Proof.
  intros P f Hf A p.
  induction p as [a | e | k IH | s' k IH | R c k IH]; intro s; simpl.
  - rewrite run_bind. specialize (Hf s).
    destruct (result (run env f s)); simpl; exact Hf.
  - rewrite run_bind. specialize (Hf s).
    destruct (result (run env f s)); simpl; exact Hf.
  - apply IH.
  - apply IH.
  - destruct (env R c s) as [r s1]. simpl. apply IH.
Qed.

(** A task that is advanced to its next [await] and then left to run alone
    ends as the program it was started from. *)
Lemma advance_run :
  forall (awaited : forall R : Type, Call R -> bool) (h : Handler Call Thrown)
         A (p : Prog St Call Thrown A) s,
    result (run (pureEnv h) p s)
    = result (run (pureEnv h) (pending (fst (advance awaited h p s)))
                (snd (advance awaited h p s)))
    /\ final (run (pureEnv h) p s)
       = final (run (pureEnv h) (pending (fst (advance awaited h p s)))
                  (snd (advance awaited h p s))).
Proof.
  intros awaited h A p.
  induction p as [a | e | k IH | s' k IH | R c k IH]; intro s; simpl.
  - split; reflexivity.
  - split; reflexivity.
  - apply IH.
  - apply IH.
  - destruct (awaited R c); simpl.
    + split; reflexivity.
    + apply IH.
Qed.

End ProgramFacts.

(** * Properties of INTERNAL__UnknownPackageableElement *)

Section UnknownElementProperties.

Import UnknownElement.

Variable TAG : string.
Variable OtherKind : Type.
Variable OtherElement : Type.

Local Abbreviation Visitor := (PackageableElementVisitor OtherKind OtherElement).
Local Abbreviation hashCodeOf u this :=
  (perform u (_elementHashCode TAG OtherKind OtherElement) this).

(** The run of the getter: the content is hashed first, then the array of
    the tag, the path and that hash; the element is left as it was. *)
Lemma perform_elementHashCode :
  forall (u : HashUtils) (this : INTERNAL__UnknownPackageableElement),
    hashCodeOf u this =
      match hashObjectWithoutSourceInformation_impl u (content this) with
      | Normal h =>
          mkOutcome (hashArray_impl u [TAG; path this; h]) this
            [Ev (hashObjectWithoutSourceInformation (content this)) (Normal h);
             Ev (hashArray [TAG; path this; h])
                (hashArray_impl u [TAG; path this; h])]
      | Abrupt e =>
          mkOutcome (Abrupt e) this
            [Ev (hashObjectWithoutSourceInformation (content this)) (Abrupt e)]
      end.
Proof.
  intros u this. unfold perform, _elementHashCode. simpl.
  destruct (hashObjectWithoutSourceInformation_impl u (content this)) as [h|e]; simpl.
  - destruct (hashArray_impl u [TAG; path this; h]); reflexivity.
  - reflexivity.
Qed.

(** The run of [accept_PackageableElementVisitor]. *)
Lemma perform_accept :
  forall T (u : HashUtils) (visitor : Visitor T)
         (this : INTERNAL__UnknownPackageableElement),
    perform u (accept_PackageableElementVisitor visitor) this =
      mkOutcome (visit_INTERNAL__UnknownPackageableElement visitor this) this
        [Ev (visitorMethod visitor (Visit_INTERNAL__UnknownPackageableElement this))
            (visit_INTERNAL__UnknownPackageableElement visitor this)].
Proof.
  intros T u visitor this. unfold perform, accept_PackageableElementVisitor. simpl.
  destruct (visit_INTERNAL__UnknownPackageableElement visitor this); reflexivity.
Qed.

(** Claim C1.  The hash code of an unknown packageable element is the hash
    ([hashArray]) of the array of exactly three components, in this order:
    the tag of the unknown-packageable-element kind, the path of the
    element, and the hash of its content without source information.  The
    one array the getter hands to [hashArray] is that array. *)
Theorem elementHashCode_components :
  forall (u : HashUtils) (this : INTERNAL__UnknownPackageableElement),
    result (hashCodeOf u this) =
      match hashObjectWithoutSourceInformation_impl u (content this) with
      | Normal h => hashArray_impl u [TAG; path this; h]
      | Abrupt e => Abrupt e
      end
    /\ hashedArrays (trace (hashCodeOf u this)) =
       match hashObjectWithoutSourceInformation_impl u (content this) with
       | Normal h => [[TAG; path this; h]]
       | Abrupt _ => []
       end.
Proof.
  intros u this. rewrite perform_elementHashCode.
  destruct (hashObjectWithoutSourceInformation_impl u (content this)) as [h|e];
    split; reflexivity.
Qed.

(** ** Source information *)

Lemma strip_object :
  forall isSrc fields,
    stripSourceInformation isSrc (JObject fields)
    = JObject (stripFields isSrc fields).
Proof. reflexivity. Qed.

(** Payloads that differ only in source information are the same payload
    once the source information is stripped. *)
Lemma sameButSource_strip :
  forall isSrc,
    (forall v w, sameButSource isSrc v w ->
                 stripSourceInformation isSrc v = stripSourceInformation isSrc w)
    /\ (forall xs ys, sameItems isSrc xs ys ->
                      map (stripSourceInformation isSrc) xs
                      = map (stripSourceInformation isSrc) ys)
    /\ (forall fs gs, sameFields isSrc fs gs ->
                      stripFields isSrc fs = stripFields isSrc gs).
Proof.
  intro isSrc.
  apply (@sameButSource_mutind isSrc
           (fun v w _ => stripSourceInformation isSrc v = stripSourceInformation isSrc w)
           (fun xs ys _ => map (stripSourceInformation isSrc) xs
                           = map (stripSourceInformation isSrc) ys)
           (fun fs gs _ => stripFields isSrc fs = stripFields isSrc gs)).
  - reflexivity.
  - reflexivity.
  - reflexivity.
  - reflexivity.
  - intros xs ys _ IH. simpl. now rewrite IH.
  - intros fs gs _ IH. rewrite !strip_object. now rewrite IH.
  - reflexivity.
  - intros x y xs ys _ IHx _ IHxs. simpl. now rewrite IHx, IHxs.
  - reflexivity.
  - intros k x fs gs Hk _ IH. simpl. now rewrite Hk.
  - intros k y fs gs Hk _ IH. simpl. now rewrite Hk.
  - intros k x y fs gs Hk _ IHv _ IH. simpl. now rewrite Hk, IHv, IH.
Qed.

Lemma sameButSource_refl :
  forall isSrc v, sameButSource isSrc v v.
Proof.
  intros isSrc v.
  induction v as [| b | n | s | items IH | fields IH] using JsonValue_ind.
  - constructor.
  - constructor.
  - constructor.
  - constructor.
  - constructor. induction IH as [| x r Hx _ IHr]; constructor; assumption.
  - constructor. induction IH as [| [k x] r Hx _ IHr].
    + constructor.
    + destruct (isSrc k) eqn:Hk.
      * apply fields_source_left; [assumption|].
        apply fields_source_right; assumption.
      * apply fields_same_key; assumption.
Qed.

Lemma sameFields_refl :
  forall isSrc fs, sameFields isSrc fs fs.
Proof.
  intros isSrc fs.
  pose proof (sameButSource_refl isSrc (JObject fs)) as H.
  inversion H; assumption.
Qed.

(** Setting a field that carries source information changes source
    information only. *)
Lemma sameFields_setField :
  forall isSrc key value fs,
    isSrc key = true -> sameFields isSrc fs (setField key value fs).
Proof.
  intros isSrc key value fs Hkey.
  induction fs as [| [k x] r IH]; simpl.
  - apply fields_source_right; [assumption | constructor].
  - destruct (String.eqb k key) eqn:E.
    + apply String.eqb_eq in E. subst k.
      apply fields_source_left; [assumption|].
      apply fields_source_right; [assumption|].
      apply sameFields_refl.
    + destruct (isSrc k) eqn:Hk.
      * apply fields_source_left; [assumption|].
        apply fields_source_right; assumption.
      * apply fields_same_key;
          [assumption | apply sameButSource_refl | assumption].
Qed.

(** Claim C2.  Two unknown packageable elements with equal paths whose
    contents differ only in source information (the fields
    [hashObjectWithoutSourceInformation] strips) have the same hash code. *)
Theorem hashCode_ignores_source_information :
  forall isSrc hashArrayFn hashObject
         (e1 e2 : INTERNAL__UnknownPackageableElement),
    path e1 = path e2 ->
    sameFields isSrc (content e1) (content e2) ->
    result (hashCodeOf (specHashUtils isSrc hashArrayFn hashObject) e1)
    = result (hashCodeOf (specHashUtils isSrc hashArrayFn hashObject) e2).
Proof.
  intros isSrc hashArrayFn hashObject e1 e2 Hpath Hsame.
  rewrite !perform_elementHashCode. simpl.
  unfold hashObjectWithoutSourceInformation_spec.
  apply sameButSource_strip in Hsame. rewrite Hsame, Hpath.
  destruct (hashObject (stripFields isSrc (content e2))); reflexivity.
Qed.

(** Changing nothing but a source annotation of an element leaves its hash
    code as it was. *)
Lemma hashCode_after_source_annotation :
  forall isSrc hashArrayFn hashObject
         (this : INTERNAL__UnknownPackageableElement) key value,
    isSrc key = true ->
    result (hashCodeOf (specHashUtils isSrc hashArrayFn hashObject)
              (mkUnknown (path this) (setField key value (content this))))
    = result (hashCodeOf (specHashUtils isSrc hashArrayFn hashObject) this).
Proof.
  intros isSrc hashArrayFn hashObject this key value Hkey.
  rewrite !perform_elementHashCode. simpl.
  unfold hashObjectWithoutSourceInformation_spec.
  pose proof (sameFields_setField isSrc key value (content this) Hkey) as Hsame.
  apply sameButSource_strip in Hsame. rewrite <- Hsame.
  destruct (hashObject (stripFields isSrc (content this))); reflexivity.
Qed.

(** Claim C4.  [accept_PackageableElementVisitor(visitor)] on an unknown
    packageable element invokes exactly one method of the visitor, the
    method of the unknown-element variant,
    [visit_INTERNAL__UnknownPackageableElement], on the element itself, and
    returns what that method returns. *)
Theorem accept_invokes_the_unknown_element_method :
  forall T (u : HashUtils) (visitor : Visitor T)
         (this : INTERNAL__UnknownPackageableElement),
    let o := perform u (accept_PackageableElementVisitor visitor) this in
    visitorInvocations (trace o) = [Visit_INTERNAL__UnknownPackageableElement this]
    /\ List.length (trace o) = 1%nat
    /\ result o = visit_INTERNAL__UnknownPackageableElement visitor this.
Proof.
  intros T u visitor this o. subst o. rewrite perform_accept.
  repeat split; reflexivity.
Qed.

(** The run of the getter in an environment whose helpers answer as [u]
    and do not write to the element. *)
Lemma run_elementHashCode :
  forall (u : HashUtils)
         (env : Env INTERNAL__UnknownPackageableElement
                  (ElementCall OtherKind OtherElement) Thrown)
         (this : INTERNAL__UnknownPackageableElement),
    answersAs u env ->
    leavesElement env ->
    run env (_elementHashCode TAG OtherKind OtherElement) this =
      match hashObjectWithoutSourceInformation_impl u (content this) with
      | Normal h =>
          mkOutcome (hashArray_impl u [TAG; path this; h]) this
            [Ev (hashObjectWithoutSourceInformation (content this)) (Normal h);
             Ev (hashArray [TAG; path this; h])
                (hashArray_impl u [TAG; path this; h])]
      | Abrupt e =>
          mkOutcome (Abrupt e) this
            [Ev (hashObjectWithoutSourceInformation (content this)) (Abrupt e)]
      end.
Proof.
  intros u env this [Harray Hobject] [Hkeep_array Hkeep_object].
  unfold _elementHashCode. simpl.
  pose proof (Hobject (content this) this) as Hanswer.
  pose proof (Hkeep_object (content this) this) as Hkeep.
  destruct (env _ (hashObjectWithoutSourceInformation (content this)) this)
    as [r s1].
  simpl in Hanswer, Hkeep. subst r s1.
  destruct (hashObjectWithoutSourceInformation_impl u (content this))
    as [h | e]; simpl; [| reflexivity].
  pose proof (Harray [TAG; path this; h] this) as Hanswer.
  pose proof (Hkeep_array [TAG; path this; h] this) as Hkeep.
  destruct (env _ (hashArray [TAG; path this; h]) this) as [r s1].
  simpl in Hanswer, Hkeep. subst r s1.
  destruct (hashArray_impl u [TAG; path this; h]); reflexivity.
Qed.


(** ** Ingestion *)

Section IngestionProperties.

Variable discriminator : PlainObject -> string.
Variable knownVariant :
  string -> option (OtherKind * (PlainObject -> Completion Thrown OtherElement)).
Variable serializeKnown : OtherKind -> OtherElement -> PlainObject.
Variable elementPath : PlainObject -> string.

Local Abbreviation deserializeOf payload :=
  (deserialize discriminator knownVariant elementPath payload).

Lemma deserialize_unknown :
  forall payload,
    knownVariant (discriminator payload) = None ->
    deserializeOf payload
    = Normal (Unknown _ _ (mkUnknown (elementPath payload) payload)).
Proof.
  intros payload Hkind. unfold deserialize. rewrite Hkind. reflexivity.
Qed.

(** Claim C5.  A payload whose kind discriminator no known variant matches
    is deserialized, without failure, to an unknown packageable element
    whose stored content is the payload; serialized again it is the
    original payload, and so on through serialize, deserialize,
    serialize. *)
Theorem unknown_payload_round_trips :
  forall payload,
    knownVariant (discriminator payload) = None ->
    exists element,
      deserialize discriminator knownVariant elementPath payload
      = Normal (Unknown _ _ element)
      /\ content element = payload
      /\ serialize serializeKnown (Unknown _ _ element) = payload
      /\ deserialize discriminator knownVariant elementPath
           (serialize serializeKnown (Unknown _ _ element))
         = Normal (Unknown _ _ element).
Proof.
  intros payload Hkind.
  exists (mkUnknown (elementPath payload) payload).
  repeat split; simpl; apply deserialize_unknown; assumption.
Qed.

(** Claim C6, amended.  An unrecognized element kind is no error: the
    payload is replaced by the unknown-element fallback, which holds it as
    its content.  On that fallback, whatever the content and whatever the
    collaborators do, the hash computation and the visitor dispatch throw
    nothing of their own and swallow nothing: the errors thrown by the
    calls they make (the two hash helpers, the method of the visitor) are
    none when the operation returns, and the one error the operation throws
    when it throws. *)
Theorem unknown_content_throws_only_what_is_raised :
  forall payload
         (env : Env INTERNAL__UnknownPackageableElement
                  (ElementCall OtherKind OtherElement) Thrown)
         T (visitor : Visitor T),
    knownVariant (discriminator payload) = None ->
    exists fallback,
      deserialize discriminator knownVariant elementPath payload
      = Normal (Unknown _ _ fallback)
      /\ content fallback = payload
      /\ (let o := run env (_elementHashCode TAG OtherKind OtherElement)
                     fallback in
          raised (trace o) = match result o with
                             | Normal _ => []
                             | Abrupt e => [e]
                             end)
      /\ (let o := run env (accept_PackageableElementVisitor visitor)
                     fallback in
          raised (trace o) = match result o with
                             | Normal _ => []
                             | Abrupt e => [e]
                             end).
Proof.
  intros payload env T visitor Hkind.
  exists (mkUnknown (elementPath payload) payload).
  split; [apply deserialize_unknown; assumption|].
  split; [reflexivity|].
  split.
  - unfold _elementHashCode. simpl.
    destruct (env _ (hashObjectWithoutSourceInformation payload) _)
      as [[h | e] s1]; simpl; [| reflexivity].
    destruct (env _ (hashArray [TAG; elementPath payload; h]) s1)
      as [[r | e] s2]; reflexivity.
  - unfold accept_PackageableElementVisitor. simpl.
    destruct (env _ (visitorMethod visitor _) _) as [[r | e] s1]; reflexivity.
Qed.

End IngestionProperties.

End UnknownElementProperties.

(** ** On the sample element *)

(** The element of the spec's example, [path = "model::Foo"] and
    [content = {"bar": 1}], under helpers that return the text they would
    digest. *)
Example fooElement_hashCode :
  result (UnknownElement.perform Samples.joinHashUtils
            (UnknownElement._elementHashCode "UNKNOWN" unit string)
            Samples.fooElement)
  = Normal "UNKNOWN,model::Foo,bar".
Proof. reflexivity. Qed.

Lemma hashCode_ignores_source_information_witness :
  UnknownElement.path Samples.fooElement
  = UnknownElement.path Samples.fooElementAnnotated
  /\ result (UnknownElement.perform
               (UnknownElement.specHashUtils Samples.isSourceInformation
                  Samples.joinArray Samples.keysOf)
               (UnknownElement._elementHashCode "UNKNOWN" unit string)
               Samples.fooElement)
     = result (UnknownElement.perform
                 (UnknownElement.specHashUtils Samples.isSourceInformation
                    Samples.joinArray Samples.keysOf)
                 (UnknownElement._elementHashCode "UNKNOWN" unit string)
                 Samples.fooElementAnnotated).
Proof.
  split; [reflexivity|].
  apply (hashCode_ignores_source_information "UNKNOWN" unit string
           Samples.isSourceInformation Samples.joinArray Samples.keysOf
           Samples.fooElement Samples.fooElementAnnotated).
  - reflexivity.
  - apply UnknownElement.fields_same_key.
    + reflexivity.
    + apply UnknownElement.same_number.
    + apply UnknownElement.fields_source_right.
      * reflexivity.
      * apply UnknownElement.fields_nil.
Defined.

Lemma unknown_payload_round_trips_witness :
  Samples.onlyClasses (Samples.typeOf Samples.futurePayload) = None
  /\ exists element,
      UnknownElement.deserialize Samples.typeOf Samples.onlyClasses
        Samples.pathOf Samples.futurePayload
      = Normal (UnknownElement.Unknown _ _ element)
      /\ UnknownElement.content element = Samples.futurePayload
      /\ UnknownElement.serialize Samples.classPayload
           (UnknownElement.Unknown _ _ element)
         = Samples.futurePayload
      /\ UnknownElement.deserialize Samples.typeOf Samples.onlyClasses
           Samples.pathOf
           (UnknownElement.serialize Samples.classPayload
              (UnknownElement.Unknown _ _ element))
         = Normal (UnknownElement.Unknown _ _ element).
Proof.
  split; [reflexivity|].
  apply (unknown_payload_round_trips unit string Samples.typeOf
           Samples.onlyClasses Samples.classPayload Samples.pathOf
           Samples.futurePayload).
  reflexivity.
Defined.

Lemma unknown_content_throws_only_what_is_raised_witness :
  Samples.onlyClasses (Samples.typeOf Samples.futurePayload) = None
  /\ exists fallback,
      UnknownElement.deserialize Samples.typeOf Samples.onlyClasses
        Samples.pathOf Samples.futurePayload
      = Normal (UnknownElement.Unknown _ _ fallback)
      /\ UnknownElement.content fallback = Samples.futurePayload
      /\ (let o := run (pureEnv (UnknownElement.collaborators
                                   Samples.joinHashUtils))
                     (UnknownElement._elementHashCode "UNKNOWN" unit string)
                     fallback in
          raised (trace o) = match result o with
                             | Normal _ => []
                             | Abrupt e => [e]
                             end)
      /\ (let o := run (pureEnv (UnknownElement.collaborators
                                   Samples.joinHashUtils))
                     (UnknownElement.accept_PackageableElementVisitor
                        Samples.unsupportingVisitor)
                     fallback in
          raised (trace o) = match result o with
                             | Normal _ => []
                             | Abrupt e => [e]
                             end).
Proof.
  split; [reflexivity|].
  apply (unknown_content_throws_only_what_is_raised "UNKNOWN" unit string
           Samples.typeOf Samples.onlyClasses Samples.pathOf
           Samples.futurePayload
           (pureEnv (UnknownElement.collaborators Samples.joinHashUtils))
           string Samples.unsupportingVisitor).
  reflexivity.
Defined.

(** Claim C6 as stated fails.  The payload of a kind the build does not
    know is replaced by the fallback; a visitor whose method for the
    fallback throws is dispatched on it, and the error reaches the caller
    of [accept_PackageableElementVisitor]. *)
Lemma unsupporting_visitor_throws_on_the_fallback :
  exists fallback,
    UnknownElement.deserialize Samples.typeOf Samples.onlyClasses
      Samples.pathOf Samples.futurePayload
    = Normal (UnknownElement.Unknown _ _ fallback)
    /\ result (UnknownElement.perform Samples.joinHashUtils
                 (UnknownElement.accept_PackageableElementVisitor
                    Samples.unsupportingVisitor)
                 fallback)
       = Abrupt (JsError "Unsupported element")
    /\ isNormal (result (UnknownElement.perform Samples.joinHashUtils
                           (UnknownElement.accept_PackageableElementVisitor
                              Samples.unsupportingVisitor)
                           fallback)) <> true.
Proof.
  exists (UnknownElement.mkUnknown (Samples.pathOf Samples.futurePayload)
            Samples.futurePayload).
  split; [reflexivity|]. split; [reflexivity|].
  simpl. discriminate.
Qed.


(** * Properties of registerService *)

Section ModalProperties.

Import ServiceRegisterModal.

Context {ActionState : Type} {api : ActionStateApi ActionState}.

Variable Service : Type.
Variable PureModel : Type.
Variable GraphManagerState : Type.
Variable toUpperCase : string -> string.
Variable LATEST_PROJECT_REVISION : string.
Variable nullableValueError : Thrown.

Local Abbreviation Call := (ModalCall Service PureModel GraphManagerState).
Local Abbreviation Store := (ExistingQueryEditorStore PureModel GraphManagerState).
Local Abbreviation registerServiceOf store ui :=
  (registerService Service toUpperCase LATEST_PROJECT_REVISION
     nullableValueError store ui).

(** The [finally] block leaves the registration state not in progress,
    with no message. *)
Lemma final_registrationDone :
  forall (env : Env ActionState Call Thrown) s,
    isInProgress
      (final (run env (registrationDone Service PureModel GraphManagerState) s))
    = false
    /\ message
         (final (run env (registrationDone Service PureModel GraphManagerState) s))
       = None.
Proof.
  intros env s. simpl. split.
  - rewrite isInProgress_setMessage. apply isInProgress_reset.
  - apply message_setMessage.
Qed.

Lemma guard_passed :
  forall busy ui,
    guard toUpperCase busy ui = false ->
    busy = false
    /\ exists selected, selectedEnvOption toUpperCase ui = Some selected.
Proof.
  intros busy ui H. unfold guard in H.
  repeat (apply orb_false_iff in H; destruct H as [H ?]).
  split; [assumption|].
  destruct (selectedEnvOption toUpperCase ui) as [selected|]; [|discriminate].
  exists selected. reflexivity.
Qed.

Lemma guard_holds :
  forall busy ui,
    busy = true \/ servicePath ui = "" \/ servicePattern ui = ""
    \/ isServicePathValid ui = false \/ isServiceUrlPatternValid ui = false
    \/ selectedEnvOption toUpperCase ui = None ->
    guard toUpperCase busy ui = true.
Proof.
  intros busy ui H. unfold guard.
  destruct H as [H | [H | [H | [H | [H | H]]]]]; rewrite H; simpl;
    repeat rewrite orb_true_r; reflexivity.
Qed.

(** Claim C8, amended.  Every invocation of [registerService] that gets
    past its guard (both fetches return and the condition of the guard is
    false) ends with the registration state not in progress and its message
    cleared, whether the [try] block completes, an error is caught, or the
    [catch] block itself throws: the [finally] block has run. *)
Theorem registerService_resets_after_the_guard :
  forall (env : Env ActionState Call Thrown) (store : Store) (ui : ModalState)
         s json s1 project s2 info s3,
    env _ (depotServerClient_getProject (query_groupId (query store))
             (query_artifactId (query store))) s = (Normal json, s1) ->
    env _ (ProjectData_fromJson json) s1 = (Normal project, s2) ->
    env _ (graphManager_getQueryInfo (query_id (query store))) s2
      = (Normal info, s3) ->
    guard toUpperCase (isInProgress s3) ui = false ->
    isInProgress (final (run env (registerServiceOf store ui) s)) = false
    /\ message (final (run env (registerServiceOf store ui) s)) = None.
Proof.
  intros env store ui s json s1 project s2 info s3 Hproject Hjson Hinfo Hguard.
  unfold registerService. simpl.
  rewrite Hproject. simpl. rewrite Hjson. simpl. rewrite Hinfo. simpl.
  rewrite Hguard.
  destruct (guard_passed _ _ Hguard) as [_ [selected Hselected]].
  rewrite Hselected. unfold try_catch_finally.
  apply (final_try_finally ActionState Call Thrown env
           (fun st => isInProgress st = false /\ message st = None)).
  apply final_registrationDone.
Qed.

(** Claim C9.  If, when [registerService] reaches its guard, registration
    is in progress, or the service path or the URL pattern is empty, or the
    path-valid or the pattern-valid flag is false, or no execution server is
    selected, the function returns: no service element is created, the
    graph manager's [registerService] and [activateService] are not called;
    the project and the query information have been fetched before. *)
Theorem registerService_returns_at_the_guard :
  forall (env : Env ActionState Call Thrown) (store : Store) (ui : ModalState)
         s json s1 project s2 info s3,
    env _ (depotServerClient_getProject (query_groupId (query store))
             (query_artifactId (query store))) s = (Normal json, s1) ->
    env _ (ProjectData_fromJson json) s1 = (Normal project, s2) ->
    env _ (graphManager_getQueryInfo (query_id (query store))) s2
      = (Normal info, s3) ->
    isInProgress s3 = true \/ servicePath ui = "" \/ servicePattern ui = ""
    \/ isServicePathValid ui = false \/ isServiceUrlPatternValid ui = false
    \/ selectedEnvOption toUpperCase ui = None ->
    let o := run env (registerServiceOf store ui) s in
    result o = Normal tt
    /\ final o = s3
    /\ trace o =
         [Ev (depotServerClient_getProject (query_groupId (query store))
                (query_artifactId (query store))) (Normal json);
          Ev (ProjectData_fromJson json) (Normal project);
          Ev (graphManager_getQueryInfo (query_id (query store))) (Normal info)]
    /\ called (@isServiceCreation Service PureModel GraphManagerState) (trace o)
       = false
    /\ called (@isRegistration Service PureModel GraphManagerState) (trace o)
       = false
    /\ called (@isActivation Service PureModel GraphManagerState) (trace o)
       = false
    /\ called (@isProjectFetch Service PureModel GraphManagerState) (trace o)
       = true
    /\ called (@isQueryInfoFetch Service PureModel GraphManagerState) (trace o)
       = true.
Proof.
  intros env store ui s json s1 project s2 info s3 Hproject Hjson Hinfo Hguard.
  apply guard_holds in Hguard.
  unfold registerService. simpl.
  rewrite Hproject. simpl. rewrite Hjson. simpl. rewrite Hinfo. simpl.
  rewrite Hguard. simpl.
  repeat split; reflexivity.
Qed.

(** The calls of [activateService] of a run, from the calls of the graph
    manager's [registerService] that returned. *)
Lemma activations_of_registerService :
  forall (env : Env ActionState Call Thrown) (store : Store) (ui : ModalState) s,
    let tr := trace (run env (registerServiceOf store ui) s) in
    activations tr =
      (if activateService ui
       then map (fun registration =>
                   (fst registration, serviceInstanceId (snd registration)))
                (registered tr)
       else [])
    /\ (List.length (registered tr) <= 1)%nat
    /\ (forall url res,
           In (url, res) (registered tr) ->
           exists selected,
             selectedEnvOption toUpperCase ui = Some selected
             /\ selectedManagementUrl store selected = Some url).
Proof.
  intros env store ui s tr. subst tr.
  unfold registerService. simpl.
  answer env;
    [| now destruct (activateService ui); repeat split; try lia; intros ? ? []].
  answer env;
    [| now destruct (activateService ui); repeat split; try lia; intros ? ? []].
  answer env;
    [| now destruct (activateService ui); repeat split; try lia; intros ? ? []].
  destruct (guard toUpperCase (isInProgress s2) ui) eqn:Hguard; simpl;
    [now destruct (activateService ui); repeat split; try lia; intros ? ? [] |].
  destruct (selectedEnvOption toUpperCase ui) as [selected|] eqn:Hselected; simpl;
    [| now destruct (activateService ui); repeat split; try lia; intros ? ? []].
  unfold try_catch_finally, registration, registrationFailed, registrationDone.
  simpl.
  destruct (selectedManagementUrl store selected) as [serverUrl|] eqn:Hurl; simpl.
  2:{ repeat (answer env);
      destruct (activateService ui); repeat split; try lia; intros ? ? []. }
  answer env.
  2:{ repeat (answer env);
      destruct (activateService ui); repeat split; try lia; intros ? ? []. }
  answer env.
  2:{ repeat (answer env);
      destruct (activateService ui); repeat split; try lia; intros ? ? []. }
  destruct (activateService ui); simpl.
  - repeat (answer env);
      (repeat split; simpl; try lia;
       intros url res [H | []]; injection H as <- <-;
       exists selected; split; [reflexivity | assumption]).
  - repeat (answer env);
      (repeat split; simpl; try lia;
       intros url res [H | []]; injection H as <- <-;
       exists selected; split; [reflexivity | assumption]).
Qed.

(** Claim C10.  In [registerService], the graph manager's [activateService]
    is invoked if and only if the activate-service toggle is on and the
    preceding call of the graph manager's [registerService] has returned;
    it is then invoked exactly once, with the management URL of the
    selected environment and the service instance id of the registration
    result. *)
Theorem activateService_follows_registration :
  forall (env : Env ActionState Call Thrown) (store : Store) (ui : ModalState) s,
    let tr := trace (run env (registerServiceOf store ui) s) in
    (activations tr <> [] <-> activateService ui = true /\ registered tr <> [])
    /\ (activations tr = []
        \/ exists url res selected,
             activations tr = [(url, serviceInstanceId res)]
             /\ registered tr = [(url, res)]
             /\ selectedEnvOption toUpperCase ui = Some selected
             /\ selectedManagementUrl store selected = Some url).
Proof.
  intros env store ui s tr.
  destruct (activations_of_registerService env store ui s)
    as [Hactivations [Honce Hurl]].
  fold tr in Hactivations, Honce, Hurl.
  rewrite Hactivations.
  destruct (activateService ui).
  - destruct (registered tr) as [| [url res] more]; simpl.
    + split; [| left; reflexivity].
      split; [intro H; now contradiction H | intros [_ H]; now contradiction H].
    + destruct more as [| another more]; [| simpl in Honce; lia].
      split.
      * split; [intros _; split; [reflexivity | discriminate] | discriminate].
      * right. destruct (Hurl url res (or_introl eq_refl))
          as [selected [Hselected Hmanagement]].
        exists url, res, selected. repeat split; assumption.
  - split; [| left; reflexivity].
    split; [intro H; now contradiction H | intros [H _]; discriminate H].
Qed.

End ModalProperties.

(** ** On the sample modal *)

Lemma registerService_resets_after_the_guard_witness :
  ServiceRegisterModal.guard Samples.upper
    (ServiceRegisterModal.isInProgress Samples.freshState)
    Samples.sampleUi = false
  /\ ServiceRegisterModal.isInProgress
       (final (run (pureEnv Samples.allReturn)
                 (Samples.sampleRegisterService Samples.sampleUi)
                 Samples.freshState)) = false
  /\ ServiceRegisterModal.message
       (final (run (pureEnv Samples.allReturn)
                 (Samples.sampleRegisterService Samples.sampleUi)
                 Samples.freshState)) = None.
Proof.
  split; [reflexivity|].
  apply (@registerService_resets_after_the_guard
           ServiceRegisterModal.ActionStateRecord
           ServiceRegisterModal.ActionStateRecord_api
           unit unit unit Samples.upper
           "latest" (JsError "the value is null")
           (pureEnv Samples.allReturn) Samples.sampleStore Samples.sampleUi
           Samples.freshState
           Samples.sampleProjectJson Samples.freshState
           Samples.sampleProject Samples.freshState
           Samples.sampleQueryInfo Samples.freshState);
    reflexivity.
Defined.

(** Claim C8 as stated fails.  A second click on "Register Service" while
    the first registration is in flight: the second invocation starts on
    the fresh state, the first one passes its guard while the second awaits
    the project, and the second one returns at its guard.  It has completed
    without an error, and the registration state is in progress, with the
    message of the first invocation. *)
Lemma second_click_ends_in_progress :
  let o := run Samples.duringFirstClick
             (Samples.sampleRegisterService Samples.sampleUi)
             (snd Samples.firstClick) in
  snd Samples.firstClick = Samples.freshState
  /\ result o = Normal tt
  /\ final o
     = ServiceRegisterModal.mkActionState true (Some "Registering service...")
  /\ ~ (ServiceRegisterModal.isInProgress (final o) = false
        /\ ServiceRegisterModal.message (final o) = None).
Proof.
  repeat split.
  intros [H _]. discriminate H.
Qed.

Lemma registerService_returns_at_the_guard_witness :
  ServiceRegisterModal.servicePath Samples.sampleUiNoPath = ""
  /\ trace (run (pureEnv Samples.allReturn)
              (Samples.sampleRegisterService Samples.sampleUiNoPath)
              Samples.freshState)
     = [Ev (ServiceRegisterModal.depotServerClient_getProject
              "org.example" "demo") (Normal Samples.sampleProjectJson);
        Ev (ServiceRegisterModal.ProjectData_fromJson Samples.sampleProjectJson)
           (Normal Samples.sampleProject);
        Ev (ServiceRegisterModal.graphManager_getQueryInfo "query-1")
           (Normal Samples.sampleQueryInfo)].
Proof.
  split; [reflexivity|].
  apply (@registerService_returns_at_the_guard
           ServiceRegisterModal.ActionStateRecord
           ServiceRegisterModal.ActionStateRecord_api
           unit unit unit Samples.upper
           "latest" (JsError "the value is null")
           (pureEnv Samples.allReturn) Samples.sampleStore
           Samples.sampleUiNoPath
           Samples.freshState
           Samples.sampleProjectJson Samples.freshState
           Samples.sampleProject Samples.freshState
           Samples.sampleQueryInfo Samples.freshState);
    try reflexivity.
  right. left. reflexivity.
Defined.

(** With the toggle on, the sample run activates the service it has
    registered, once. *)
Example sample_activation :
  ServiceRegisterModal.activations
    (trace (run (pureEnv Samples.allReturn)
              (Samples.sampleRegisterService Samples.sampleUiActivating)
              Samples.freshState))
  = [("https://dev.example/manage", "instance-1")].
Proof. reflexivity. Qed.

(** A rejected registration is caught: the error is logged and notified,
    nothing is activated, and the registration state is reset. *)
Example rejected_registration_is_caught :
  let o := run (pureEnv Samples.registrationRejected)
             (Samples.sampleRegisterService Samples.sampleUiActivating)
             Samples.freshState in
  result o = Normal tt
  /\ final o = ServiceRegisterModal.mkActionState false None
  /\ ServiceRegisterModal.callees (trace o)
     = ["depotServerClient.getProject"; "ProjectData.serialization.fromJson";
        "graphManager.getQueryInfo"; "createServiceElement";
        "graphManager.registerService"; "assertErrorThrown";
        "applicationStore.log.error"; "applicationStore.notifyError"].
Proof. repeat split. Qed.

(** When the [catch] block itself throws, the exception leaves the action,
    and the registration state is reset all the same. *)
Example throwing_catch_block_still_resets :
  let o := run (pureEnv Samples.catchBlockThrows)
             (Samples.sampleRegisterService Samples.sampleUi)
             Samples.freshState in
  result o = Abrupt (JsError "Expected error to be thrown")
  /\ final o = ServiceRegisterModal.mkActionState false None
  /\ ServiceRegisterModal.callees (trace o)
     = ["depotServerClient.getProject"; "ProjectData.serialization.fromJson";
        "graphManager.getQueryInfo"; "createServiceElement";
        "assertErrorThrown"].
Proof. repeat split. Qed.

(** The second of two overlapping clicks, as a task: it settles without an
    error while the registration of the first click is in progress. *)
Example second_click_settles_in_progress :
  Samples.twoClicks
  = (Settled (Normal tt),
     ServiceRegisterModal.mkActionState true (Some "Registering service...")).
Proof. reflexivity. Qed.

(** * More properties of registerService *)

Section RegistrationProperties.

Import ServiceRegisterModal.

Context {ActionState : Type} {api : ActionStateApi ActionState}.

Variable Service : Type.
Variable PureModel : Type.
Variable GraphManagerState : Type.
Variable toUpperCase : string -> string.
Variable LATEST_PROJECT_REVISION : string.
Variable nullableValueError : Thrown.

Local Abbreviation Call := (ModalCall Service PureModel GraphManagerState).
Local Abbreviation Store := (ExistingQueryEditorStore PureModel GraphManagerState).
Local Abbreviation registerServiceOf store ui :=
  (registerService Service toUpperCase LATEST_PROJECT_REVISION
     nullableValueError store ui).
Local Abbreviation tryBlockOf store ui selected project info :=
  (try_catch_finally
     (registration Service LATEST_PROJECT_REVISION nullableValueError
        store ui selected project info)
     (registrationFailed Service PureModel GraphManagerState)
     (registrationDone Service PureModel GraphManagerState)).

(** Past the guard, the run is the two fetches followed by the run of the
    [try] statement. *)
Lemma run_past_the_guard :
  forall (env : Env ActionState Call Thrown) (store : Store) (ui : ModalState)
         s json s1 project s2 info s3,
    env _ (depotServerClient_getProject (query_groupId (query store))
             (query_artifactId (query store))) s = (Normal json, s1) ->
    env _ (ProjectData_fromJson json) s1 = (Normal project, s2) ->
    env _ (graphManager_getQueryInfo (query_id (query store))) s2
      = (Normal info, s3) ->
    guard toUpperCase (isInProgress s3) ui = false ->
    exists selected,
      selectedEnvOption toUpperCase ui = Some selected
      /\ run env (registerServiceOf store ui) s =
         let o := run env (tryBlockOf store ui selected project info) s3 in
         mkOutcome (result o) (final o)
           ([Ev (depotServerClient_getProject (query_groupId (query store))
                   (query_artifactId (query store))) (Normal json);
             Ev (ProjectData_fromJson json) (Normal project);
             Ev (graphManager_getQueryInfo (query_id (query store)))
                (Normal info)] ++ trace o).
Proof.
  intros env store ui s json s1 project s2 info s3 Hproject Hjson Hinfo Hguard.
  destruct (guard_passed toUpperCase _ _ Hguard) as [_ [selected Hselected]].
  exists selected. split; [assumption|].
  unfold registerService. simpl.
  rewrite Hproject. simpl. rewrite Hjson. simpl. rewrite Hinfo. simpl.
  rewrite Hguard, Hselected. reflexivity.
Qed.

(** Property X1.  An error inside the [try] block of [registerService]
    never leaves the action: past the guard, and as long as the three
    calls of the [catch] block ([assertErrorThrown], [log.error],
    [notifyError]) return, the action completes normally, whatever the
    other collaborators do. *)
Theorem registration_errors_do_not_escape :
  forall (env : Env ActionState Call Thrown) (store : Store) (ui : ModalState)
         s json s1 project s2 info s3,
    env _ (depotServerClient_getProject (query_groupId (query store))
             (query_artifactId (query store))) s = (Normal json, s1) ->
    env _ (ProjectData_fromJson json) s1 = (Normal project, s2) ->
    env _ (graphManager_getQueryInfo (query_id (query store))) s2
      = (Normal info, s3) ->
    guard toUpperCase (isInProgress s3) ui = false ->
    (forall error st, isNormal (fst (env _ (assertErrorThrown error) st)) = true) ->
    (forall event error st,
        isNormal (fst (env _ (log_error event error) st)) = true) ->
    (forall error st, isNormal (fst (env _ (notifyError error) st)) = true) ->
    result (run env (registerServiceOf store ui) s) = Normal tt.
Proof.
  intros env store ui s json s1 project s2 info s3 Hproject Hjson Hinfo Hguard
         Hassert Hlog Hnotify.
  destruct (run_past_the_guard env store ui s json s1 project s2 info s3
              Hproject Hjson Hinfo Hguard) as [selected [_ ->]].
  unfold try_catch_finally, registration, registrationFailed, registrationDone.
  simpl.
  destruct (selectedManagementUrl store selected) as [serverUrl|]; simpl.
  2:{ repeat (answered env); units; try reflexivity;
      returns Hassert Hlog Hnotify. }
  answered env.
  2:{ repeat (answered env); units; try reflexivity;
      returns Hassert Hlog Hnotify. }
  answered env.
  2:{ repeat (answered env); units; try reflexivity;
      returns Hassert Hlog Hnotify. }
  destruct (activateService ui); simpl;
    repeat (answered env); units; try reflexivity;
    returns Hassert Hlog Hnotify.
Qed.

(** Property X2.  The asynchronous function that [guardUnhandledError]
    wraps does not catch an error of the two fetches, which stand before
    its [try] statement: the function throws that error (its promise is
    rejected with it; what the wrapper does with the rejection is outside
    this function), the state is as the failed call has left it, and the
    [catch] block is not run: the function logs and notifies nothing and
    creates no service. *)
Theorem failed_fetch_bypasses_the_catch_block :
  forall (env : Env ActionState Call Thrown) (store : Store) (ui : ModalState)
         s e s',
    env _ (depotServerClient_getProject (query_groupId (query store))
             (query_artifactId (query store))) s = (Abrupt e, s')
    \/ (exists json s1,
           env _ (depotServerClient_getProject (query_groupId (query store))
                    (query_artifactId (query store))) s = (Normal json, s1)
           /\ env _ (ProjectData_fromJson json) s1 = (Abrupt e, s'))
    \/ (exists json s1 project s2,
           env _ (depotServerClient_getProject (query_groupId (query store))
                    (query_artifactId (query store))) s = (Normal json, s1)
           /\ env _ (ProjectData_fromJson json) s1 = (Normal project, s2)
           /\ env _ (graphManager_getQueryInfo (query_id (query store))) s2
              = (Abrupt e, s')) ->
    let o := run env (registerServiceOf store ui) s in
    result o = Abrupt e
    /\ final o = s'
    /\ notifications (trace o) = []
    /\ loggedErrors (trace o) = []
    /\ creations (trace o) = [].
Proof.
  intros env store ui s e s' H o. subst o.
  unfold registerService. simpl.
  destruct H as [H | [[json [s1 [H1 H2]]]
                     | [json [s1 [project [s2 [H1 [H2 H3]]]]]]]].
  - rewrite H. simpl. repeat split.
  - rewrite H1. simpl. rewrite H2. simpl. repeat split.
  - rewrite H1. simpl. rewrite H2. simpl. rewrite H3. simpl. repeat split.
Qed.

(** Property X3.  An invocation of [registerService] sends at most one
    registration request, and what it registers is the service
    [createServiceElement] has just returned for the path, pattern and
    owners of the modal and the content, mapping and runtime of the fetched
    query, under the group and artifact id of the fetched project, at
    [LATEST_PROJECT_REVISION], in semi-interactive mode, at the management
    URL of the selected environment. *)
Theorem registration_request_data :
  forall (env : Env ActionState Call Thrown) (store : Store) (ui : ModalState) s,
    let tr := trace (run env (registerServiceOf store ui) s) in
    registrationRequests tr = []
    \/ exists project info service serverUrl selected,
        projects tr = [project]
        /\ queryInfos tr = [info]
        /\ creations tr =
             [(servicePath ui, servicePattern ui, owners ui, content info,
               mapping info, runtime info, graphManagerState store,
               Normal service)]
        /\ registrationRequests tr =
             [(service, graph store, groupId project, artifactId project,
               LATEST_PROJECT_REVISION, serverUrl, SEMI_INTERACTIVE)]
        /\ selectedEnvOption toUpperCase ui = Some selected
        /\ selectedManagementUrl store selected = Some serverUrl.
Proof.
  intros env store ui s tr. subst tr.
  unfold registerService. simpl.
  answer env; [| left; reflexivity].
  answer_as env project; [| left; reflexivity].
  answer_as env info; [| left; reflexivity].
  destruct (guard toUpperCase (isInProgress s2) ui); simpl; [left; reflexivity |].
  destruct (selectedEnvOption toUpperCase ui) as [selected|] eqn:Hselected;
    simpl; [| left; reflexivity].
  unfold try_catch_finally, registration, registrationFailed, registrationDone.
  simpl.
  destruct (selectedManagementUrl store selected) as [serverUrl|] eqn:Hurl; simpl.
  2:{ repeat (answer env); left; reflexivity. }
  answer_as env service.
  2:{ repeat (answer env); left; reflexivity. }
  right. exists project, info, service, serverUrl, selected.
  answer env.
  2:{ repeat (answer env); repeat split; assumption. }
  destruct (activateService ui); simpl;
    repeat (answer env); repeat split; assumption.
Qed.

(** Property X4.  The success alert is shown only after a success: when
    [setActionAlertInfo] has accepted an alert, it is the one alert of the
    run, built from the server URL and the result of the registration that
    returned; the pattern check has returned, the service has been
    activated exactly when the toggle is on, no error has been notified,
    and the action completes normally. *)
Theorem success_alert_means_success :
  forall (env : Env ActionState Call Thrown) (store : Store) (ui : ModalState) s,
    let o := run env (registerServiceOf store ui) s in
    shownAlerts (trace o) = []
    \/ exists serverUrl res,
        shownAlerts (trace o) = [registeredAlert ui serverUrl res]
        /\ registered (trace o) = [(serverUrl, res)]
        /\ returned (@isPatternCheck Service PureModel GraphManagerState)
             (trace o) = true
        /\ returned (@isActivation Service PureModel GraphManagerState)
             (trace o) = activateService ui
        /\ notifications (trace o) = []
        /\ result o = Normal tt.
Proof.
  intros env store ui s o. subst o.
  unfold registerService. simpl.
  answer env; [| left; reflexivity].
  answer env; [| left; reflexivity].
  answer env; [| left; reflexivity].
  destruct (guard toUpperCase (isInProgress s2) ui); simpl; [left; reflexivity |].
  destruct (selectedEnvOption toUpperCase ui) as [selected|] eqn:Hselected;
    simpl; [| left; reflexivity].
  unfold try_catch_finally, registration, registrationFailed, registrationDone.
  simpl.
  destruct (selectedManagementUrl store selected) as [serverUrl|] eqn:Hurl; simpl.
  2:{ repeat (answer env); left; reflexivity. }
  answer env.
  2:{ repeat (answer env); left; reflexivity. }
  answer_as env res.
  2:{ repeat (answer env); left; reflexivity. }
  destruct (activateService ui); simpl.
  - answer env.
    2:{ repeat (answer env); left; reflexivity. }
    answer env.
    2:{ repeat (answer env); left; reflexivity. }
    answer env.
    2:{ repeat (answer env); left; reflexivity. }
    right. exists serverUrl, res. units. repeat split.
  - answer env.
    2:{ repeat (answer env); left; reflexivity. }
    answer env.
    2:{ repeat (answer env); left; reflexivity. }
    right. exists serverUrl, res. units. repeat split.
Qed.

(** Property X5.  Past the guard the user always hears of the outcome, one
    way and not the other: as long as [assertErrorThrown] and [log.error]
    return, either the success alert has been shown and nothing has been
    logged or notified, or no alert has been shown and exactly one error
    has been logged, under [SERVICE_REGISTRATION_FAILURE], and that same
    error has been handed to [notifyError]. *)
Theorem alert_or_notification :
  forall (env : Env ActionState Call Thrown) (store : Store) (ui : ModalState)
         s json s1 project s2 info s3,
    env _ (depotServerClient_getProject (query_groupId (query store))
             (query_artifactId (query store))) s = (Normal json, s1) ->
    env _ (ProjectData_fromJson json) s1 = (Normal project, s2) ->
    env _ (graphManager_getQueryInfo (query_id (query store))) s2
      = (Normal info, s3) ->
    guard toUpperCase (isInProgress s3) ui = false ->
    (forall error st, isNormal (fst (env _ (assertErrorThrown error) st)) = true) ->
    (forall event error st,
        isNormal (fst (env _ (log_error event error) st)) = true) ->
    let tr := trace (run env (registerServiceOf store ui) s) in
    (List.length (shownAlerts tr) = 1%nat
     /\ notifications tr = [] /\ loggedErrors tr = [])
    \/ (shownAlerts tr = []
        /\ exists error,
            notifications tr = [error]
            /\ loggedErrors tr = [(SERVICE_REGISTRATION_FAILURE, error)]).
Proof.
  intros env store ui s json s1 project s2 info s3 Hproject Hjson Hinfo Hguard
         Hassert Hlog tr. subst tr.
  destruct (run_past_the_guard env store ui s json s1 project s2 info s3
              Hproject Hjson Hinfo Hguard) as [selected [_ ->]].
  unfold try_catch_finally, registration, registrationFailed, registrationDone.
  simpl.
  assert (Hnotify : True) by exact I.
  destruct (selectedManagementUrl store selected) as [serverUrl|]; simpl.
  2:{ repeat (answered env);
      first [ returns Hassert Hlog Hnotify
            | right; split; [reflexivity | eexists; split; reflexivity] ]. }
  answered env.
  2:{ repeat (answered env);
      first [ returns Hassert Hlog Hnotify
            | right; split; [reflexivity | eexists; split; reflexivity] ]. }
  answered env.
  2:{ repeat (answered env);
      first [ returns Hassert Hlog Hnotify
            | right; split; [reflexivity | eexists; split; reflexivity] ]. }
  destruct (activateService ui); simpl;
    repeat (answered env);
    first [ returns Hassert Hlog Hnotify
          | left; repeat split; reflexivity
          | right; split; [reflexivity | eexists; split; reflexivity] ].
Qed.

(** Property X6.  When the configuration has no entry for the selected
    environment, [guaranteeNonNullable] throws inside the [try] block: no
    service is created or registered and no alert is shown, and (as long as
    [assertErrorThrown] and [log.error] return) the error of
    [guaranteeNonNullable] is the one error logged and notified. *)
Theorem missing_environment_is_reported :
  forall (env : Env ActionState Call Thrown) (store : Store) (ui : ModalState)
         s json s1 project s2 info s3 selected,
    env _ (depotServerClient_getProject (query_groupId (query store))
             (query_artifactId (query store))) s = (Normal json, s1) ->
    env _ (ProjectData_fromJson json) s1 = (Normal project, s2) ->
    env _ (graphManager_getQueryInfo (query_id (query store))) s2
      = (Normal info, s3) ->
    guard toUpperCase (isInProgress s3) ui = false ->
    selectedEnvOption toUpperCase ui = Some selected ->
    selectedManagementUrl store selected = None ->
    (forall error st, isNormal (fst (env _ (assertErrorThrown error) st)) = true) ->
    (forall event error st,
        isNormal (fst (env _ (log_error event error) st)) = true) ->
    let tr := trace (run env (registerServiceOf store ui) s) in
    creations tr = []
    /\ registrationRequests tr = []
    /\ shownAlerts tr = []
    /\ loggedErrors tr = [(SERVICE_REGISTRATION_FAILURE, nullableValueError)]
    /\ notifications tr = [nullableValueError].
Proof.
  intros env store ui s json s1 project s2 info s3 selected
         Hproject Hjson Hinfo Hguard Hselected Hurl Hassert Hlog tr. subst tr.
  destruct (run_past_the_guard env store ui s json s1 project s2 info s3
              Hproject Hjson Hinfo Hguard) as [selected' [Hselected' ->]].
  rewrite Hselected in Hselected'. injection Hselected' as <-.
  unfold try_catch_finally, registration, registrationFailed, registrationDone.
  simpl. rewrite Hurl. simpl.
  assert (Hnotify : True) by exact I.
  repeat (answered env);
    first [ returns Hassert Hlog Hnotify | repeat split; reflexivity ].
Qed.

(** ** The handlers of the modal *)

Variable isValidFullPath : string -> bool.
Variable validate_ServicePattern : string -> bool.

Lemma isEmptyString_false :
  forall s, isEmptyString s = false <-> s <> "".
Proof.
  intro s. destruct s; simpl; split; intro H;
    try discriminate; try reflexivity; try (now contradiction H).
Qed.

(** A lookup that succeeds has found the first entry that fits. *)
Lemma find_first :
  forall (f : ServiceRegistrationEnvironmentConfig -> bool) l x,
    find f l = Some x ->
    exists before after,
      l = before ++ x :: after
      /\ f x = true
      /\ forallb (fun y => negb (f y)) before = true.
Proof.
  intros f l. induction l as [| y l IH]; intros x H; simpl in H.
  - discriminate.
  - destruct (f y) eqn:Hy.
    + injection H as <-. exists [], l. repeat split; assumption.
    + destruct (IH x H) as [before [after [-> [Hx Hbefore]]]].
      exists (y :: before), after. repeat split; try assumption.
      simpl. rewrite Hy. assumption.
Qed.

(** Property X7.  Selecting an environment the selector offers (one of
    [envOptions], its value not empty) makes that very option the selected
    one, and its management URL is found: it is the URL of the first entry
    of the configuration with that environment, so that
    [guaranteeNonNullable] does not throw. *)
Theorem offered_environment_has_a_management_url :
  forall (store : Store) (ui : ModalState) (option : SelectOption),
    In option (envOptions toUpperCase store) ->
    value option <> "" ->
    selectedEnvOption toUpperCase (onServerEnvChange (Some option) ui)
    = Some option
    /\ exists before info after,
        TEMPORARY__serviceRegistrationConfig store = before ++ info :: after
        /\ env info = value option
        /\ forallb (fun other => negb (String.eqb (env other) (value option)))
             before = true
        /\ selectedManagementUrl store option = Some (managementUrl info).
Proof.
  intros store ui option Hoffered Hvalue.
  unfold envOptions in Hoffered.
  apply in_map_iff in Hoffered. destruct Hoffered as [entry [<- Hentry]].
  apply filter_In in Hentry. destruct Hentry as [Hin _]. simpl in *.
  split.
  - unfold selectedEnvOption. simpl.
    apply isEmptyString_false in Hvalue. rewrite Hvalue. reflexivity.
  - unfold selectedManagementUrl. simpl.
    destruct (find (fun option => String.eqb (env option) (env entry))
                (TEMPORARY__serviceRegistrationConfig store))
      as [info|] eqn:Hfind.
    + destruct (find_first _ _ _ Hfind)
        as [before [after [Hsplit [Heq Hbefore]]]].
      exists before, info, after. apply String.eqb_eq in Heq.
      repeat split; assumption.
    + exfalso. apply (find_none _ _ Hfind) in Hin.
      rewrite String.eqb_refl in Hin. discriminate.
Qed.

(** When the guard holds in every state, nothing is created, registered or
    activated, whatever the collaborators do. *)
Lemma guarded_action_does_nothing :
  forall (env : Env ActionState Call Thrown) (store : Store) (ui : ModalState) s,
    (forall registrationInProgress,
        guard toUpperCase registrationInProgress ui = true) ->
    let tr := trace (run env (registerServiceOf store ui) s) in
    creations tr = [] /\ registrationRequests tr = [] /\ activations tr = [].
Proof.
  intros env store ui s Hguard tr. subst tr.
  unfold registerService. simpl.
  answer env; [| repeat split].
  answer env; [| repeat split].
  answer env; [| repeat split].
  rewrite Hguard. repeat split.
Qed.

(** Property X8.  After the selection is cleared ([onServerEnvChange(null)])
    or an option with an empty value is chosen, no environment counts as
    selected, and [registerService] creates, registers and activates
    nothing, whatever the collaborators do. *)
Theorem no_selection_no_registration :
  forall (env : Env ActionState Call Thrown) (store : Store) (ui : ModalState)
         (val : option SelectOption) s,
    val = None \/ (exists option, val = Some option /\ value option = "") ->
    let tr := trace (run env (registerServiceOf store
                                (onServerEnvChange val ui)) s) in
    selectedEnvOption toUpperCase (onServerEnvChange val ui) = None
    /\ creations tr = [] /\ registrationRequests tr = [] /\ activations tr = [].
Proof.
  intros env store ui val s Hval tr.
  assert (Hnone : selectedEnvOption toUpperCase (onServerEnvChange val ui)
                  = None).
  { destruct Hval as [-> | [option [-> Hempty]]]; unfold selectedEnvOption; simpl.
    - reflexivity.
    - rewrite Hempty. reflexivity. }
  split; [exact Hnone|].
  apply guarded_action_does_nothing.
  intro busy. apply guard_holds. repeat right. exact Hnone.
Qed.

Lemma handle_keeps_flags :
  forall input ui,
    flagsInSync isValidFullPath validate_ServicePattern ui ->
    flagsInSync isValidFullPath validate_ServicePattern
      (handle isValidFullPath validate_ServicePattern input ui).
Proof.
  intros input ui [Hpath Hpattern].
  destruct input; unfold flagsInSync; simpl; split;
    first [assumption | reflexivity].
Qed.

(** Property X9.  Whatever the user does to the modal, in whatever order,
    the two validity flags say what the validators say of the path and the
    pattern the modal now holds (given that the validators accept the
    initial path and pattern, which the modal marks as valid). *)
Theorem flags_follow_the_inputs :
  forall (uuid : string) (inputs : list ModalInput),
    isValidFullPath "model::QueryService" = true ->
    validate_ServicePattern ("/" ++ uuid) = false ->
    let ui := afterInputs isValidFullPath validate_ServicePattern inputs
                (initialModalState uuid) in
    isServicePathValid ui = isValidFullPath (servicePath ui)
    /\ isServiceUrlPatternValid ui
       = negb (validate_ServicePattern (servicePattern ui)).
Proof.
  intros uuid inputs Hpath Hpattern ui. subst ui.
  assert (Hstart : flagsInSync isValidFullPath validate_ServicePattern
                     (initialModalState uuid)).
  { split; simpl; [symmetry; exact Hpath |].
    simpl in Hpattern. rewrite Hpattern. reflexivity. }
  revert Hstart. generalize (initialModalState uuid).
  unfold afterInputs.
  induction inputs as [| input inputs IH]; intros ui Hsync; simpl.
  - exact Hsync.
  - apply IH. apply handle_keeps_flags. exact Hsync.
Qed.

(** Property X10.  With the flags in step with the validators, a service is
    only ever created from valid input: if a run of [registerService] calls
    [createServiceElement], then [isValidFullPath] accepts the path,
    [validate_ServicePattern] finds no issue in the pattern, neither is
    empty, and an environment is selected. *)
Theorem only_valid_input_is_registered :
  forall (env : Env ActionState Call Thrown) (store : Store) (ui : ModalState) s,
    isServicePathValid ui = isValidFullPath (servicePath ui) ->
    isServiceUrlPatternValid ui
    = negb (validate_ServicePattern (servicePattern ui)) ->
    creations (trace (run env (registerServiceOf store ui) s)) <> [] ->
    isValidFullPath (servicePath ui) = true
    /\ validate_ServicePattern (servicePattern ui) = false
    /\ servicePath ui <> ""
    /\ servicePattern ui <> ""
    /\ serviceEnv ui <> None.
Proof.
  intros env store ui s Hpath Hpattern Hcreated.
  assert (Hguard : exists registrationInProgress,
             guard toUpperCase registrationInProgress ui = false).
  { revert Hcreated. unfold registerService. simpl.
    answer env; [| intro H; now contradiction H].
    answer env; [| intro H; now contradiction H].
    answer env; [| intro H; now contradiction H].
    destruct (guard toUpperCase (isInProgress s2) ui) eqn:Hguard; simpl.
    - intro H; now contradiction H.
    - intros _. exists (isInProgress s2). exact Hguard. }
  destruct Hguard as [busy Hguard]. unfold guard in Hguard.
  repeat (apply orb_false_iff in Hguard; destruct Hguard as [Hguard ?]).
  repeat match goal with
         | H : negb _ = false |- _ => apply negb_false_iff in H
         end.
  repeat split.
  - congruence.
  - rewrite Hpattern in *.
    match goal with
    | H : negb _ = true |- _ => apply negb_true_iff in H; exact H
    end.
  - apply isEmptyString_false. assumption.
  - apply isEmptyString_false. assumption.
  - intro Hnone. unfold selectedEnvOption in *. rewrite Hnone in *.
    discriminate.
Qed.

(** ** Invocations in the event loop *)

Local Abbreviation Invocation := (Task ActionState Call Thrown unit).
Local Abbreviation awaitedCall :=
  (fun R => @awaited Service PureModel GraphManagerState R).

(** What [suspensions] lists first is what the task awaits first. *)
Lemma suspensions_advance :
  forall (h : Handler Call Thrown) A (p : Prog ActionState Call Thrown A) s,
    suspensions awaitedCall h p s =
      match advance awaitedCall h p s with
      | (Settled _, _) => []
      | (Awaiting c k, s') =>
          (Ev c (h _ c), s') :: suspensions awaitedCall h (k (h _ c)) s'
      end.
Proof.
  intros h A p.
  induction p as [a | e | k IH | s' k IH | R c k IH]; intro s; simpl.
  - reflexivity.
  - reflexivity.
  - apply IH.
  - apply IH.
  - destruct (awaited c); simpl; [reflexivity | apply IH].
Qed.

(** Property X11.  What the modal shows while an invocation of
    [registerService] that runs alone awaits a call: during the two fetches
    the registration state is the one the invocation started in; during the
    creation and the registration of the service a registration is in
    progress with the message "Registering service...", and during the
    activation with the message "Activating service...". *)
Theorem progress_is_shown_while_registering :
  forall (store : Store) (ui : ModalState) (h : Handler Call Thrown) s,
    Forall (shownWhileAwaiting s)
      (suspensions awaitedCall h (registerServiceOf store ui) s).
Proof.
  intros store ui h s. unfold registerService. simpl.
  reply h; [| repeat constructor].
  reply h; [| repeat constructor].
  reply h; [| repeat constructor].
  destruct (guard toUpperCase (isInProgress s) ui); simpl; [repeat constructor |].
  destruct (selectedEnvOption toUpperCase ui) as [selected|]; simpl;
    [| repeat constructor].
  unfold try_catch_finally, registration, registrationFailed, registrationDone.
  simpl.
  destruct (selectedManagementUrl store selected) as [serverUrl|]; simpl.
  2:{ repeat (reply h); repeat constructor. }
  reply h.
  2:{ repeat (reply h); repeat constructor;
      unfold shownWhileAwaiting; simpl;
      first [ reflexivity | apply message_setMessage | busy ]. }
  reply h.
  2:{ repeat (reply h); repeat constructor;
      unfold shownWhileAwaiting; simpl;
      first [ reflexivity | apply message_setMessage | busy ]. }
  destruct (activateService ui); simpl;
    repeat (reply h); repeat constructor;
    unfold shownWhileAwaiting; simpl;
    first [ reflexivity | apply message_setMessage | busy ].
Qed.

(** The [try] statement, started with a management URL at hand, is an
    invocation inside the [try] block, and a registration is in progress. *)
Lemma registration_steps :
  forall (store : Store) (ui : ModalState) selected project info serverUrl
         (h : Handler Call Thrown) s,
    selectedManagementUrl store selected = Some serverUrl ->
    let p := try_catch_finally
               (registration Service LATEST_PROJECT_REVISION nullableValueError
                  store ui selected project info)
               (registrationFailed Service PureModel GraphManagerState)
               (registrationDone Service PureModel GraphManagerState) in
    Registering (fst (advance awaitedCall h p s))
    /\ isInProgress (snd (advance awaitedCall h p s)) = true.
Proof.
  intros store ui selected project info serverUrl h s Hurl p. subst p.
  unfold try_catch_finally, registration, registrationFailed, registrationDone.
  simpl. rewrite Hurl. simpl. split; [| busy].
  apply registering; [reflexivity|].
  intros h1 r1 s1 Hbusy1. simpl.
  destruct r1 as [service | e1]; simpl.
  2:{ repeat (reply h1); done_settled. }
  left. split; [| exact Hbusy1].
  apply registering; [reflexivity|].
  intros h2 r2 s2 Hbusy2. simpl.
  destruct r2 as [res | e2]; simpl.
  2:{ repeat (reply h2); done_settled. }
  destruct (activateService ui); simpl.
  - left. split; [| busy].
    apply registering; [reflexivity|].
    intros h3 r3 s3 Hbusy3. simpl.
    destruct r3 as [[] | e3]; simpl; repeat (reply h3); done_settled.
  - repeat (reply h2); done_settled.
Qed.

(** A click starts an invocation before the [try] block and leaves the
    state as it is. *)
Lemma started_invocation :
  forall (store : Store) (ui : ModalState) (h : Handler Call Thrown) s,
    Fetching (fst (advance awaitedCall h (registerServiceOf store ui) s))
    /\ snd (advance awaitedCall h (registerServiceOf store ui) s) = s.
Proof.
  intros store ui h s. unfold registerService. simpl. split; [| reflexivity].
  apply fetching; [reflexivity|].
  intros h1 r1 s1. simpl.
  destruct r1 as [json | e1]; simpl.
  2:{ left. split; [apply fetching_settled | reflexivity]. }
  destruct (h1 _ (ProjectData_fromJson json)) as [project | e]; simpl.
  2:{ left. split; [apply fetching_settled | reflexivity]. }
  left. split; [| reflexivity].
  apply fetching; [reflexivity|].
  intros h2 r2 s2. simpl.
  destruct r2 as [info | e2]; simpl.
  2:{ left. split; [apply fetching_settled | reflexivity]. }
  destruct (guard toUpperCase (isInProgress s2) ui) eqn:Hguard; simpl.
  { left. split; [apply fetching_settled | reflexivity]. }
  destruct (guard_passed toUpperCase _ _ Hguard) as [Hfree [selected Hselected]].
  rewrite Hselected.
  destruct (selectedManagementUrl store selected) as [serverUrl|] eqn:Hurl.
  - right. right. split; [exact Hfree|].
    apply (registration_steps store ui selected project info serverUrl h2 s2
             Hurl).
  - right. left. split; [exact Hfree|].
    unfold try_catch_finally, registration, registrationFailed, registrationDone.
    simpl. rewrite Hurl. simpl.
    repeat (reply h2); (split; [eexists; reflexivity | busy]).
Qed.

Lemma Registering_awaits :
  forall t : Invocation, Registering t -> awaitsRegistrationStep t = true.
Proof. intros t H. destruct H as [R c k Hkind _]. exact Hkind. Qed.

Lemma Fetching_awaits :
  forall t : Invocation, Fetching t -> awaitsRegistrationStep t = false.
Proof.
  intros t H. destruct H as [r | R c k Hkind _]; [reflexivity | exact Hkind].
Qed.

Lemma filter_replaceNth :
  forall (X : Type) (f : X -> bool) i (x y : X) l,
    nth_error l i = Some x ->
    (List.length (filter f (replaceNth i y l)) + (if f x then 1 else 0)
     = List.length (filter f l) + (if f y then 1 else 0))%nat.
Proof.
  intros X f i x y l. revert i.
  induction l as [| z l IH]; intros i H.
  - destruct i; discriminate H.
  - destruct i as [| j]; simpl in H.
    + injection H as ->. simpl. destruct (f x), (f y); simpl; lia.
    + specialize (IH j H). simpl. destruct (f z); simpl; lia.
Qed.

Lemma Forall_replaceNth :
  forall (X : Type) (P : X -> Prop) i (y : X) l,
    Forall P l -> P y -> Forall P (replaceNth i y l).
Proof.
  intros X P i y l Hl Hy. revert i.
  induction Hl as [| z l Hz Hl IH]; intro i; simpl.
  - constructor.
  - destruct i; constructor; auto.
Qed.

Lemma loopStep_keeps_invariant :
  forall (store : Store) (ps : list Invocation * ActionState) e,
    loopInvariant ps ->
    loopInvariant (loopStep toUpperCase LATEST_PROJECT_REVISION
                     nullableValueError store ps e).
Proof.
  intros store [pool s] e [Hall Hcount]. simpl in Hall, Hcount.
  destruct e as [ui h | i h]; unfold loopStep; cbn [fst snd].
  - destruct (started_invocation store ui h s) as [Hfetching Hstate].
    destruct (advance _ h (registerServiceOf store ui) s) as [t s'].
    simpl in Hfetching, Hstate. subst s'. split; simpl.
    + apply Forall_app. split; [exact Hall|]. constructor; [| constructor].
      left. exact Hfetching.
    + rewrite filter_app, length_app. simpl.
      rewrite (Fetching_awaits t Hfetching). simpl. lia.
  - destruct (nth_error pool i) as [t|] eqn:Hnth; [| split; assumption].
    pose proof (filter_replaceNth _ awaitsRegistrationStep i t) as Hfilter.
    assert (Ht : Fetching t \/ Registering t).
    { rewrite Forall_forall in Hall. apply Hall.
      apply (nth_error_In _ _ Hnth). }
    destruct Ht as [Ht | Ht].
    + pose proof (Fetching_awaits t Ht) as Hout.
      destruct Ht as [r | R c k Hkind Hnext]; simpl.
      * split; simpl.
        -- apply Forall_replaceNth; [exact Hall | left; apply fetching_settled].
        -- specialize (Hfilter (Settled r) pool Hnth). simpl in Hfilter, Hout.
           lia.
      * specialize (Hnext h (h _ c) s). simpl in Hnext.
        destruct (advance _ h (k (h R c)) s) as [t' s'].
        simpl in Hnext. specialize (Hfilter t' pool Hnth).
        rewrite Hout in Hfilter.
        destruct Hnext as [[Ht' ->] | [[Hfree [[r' ->] Hfree']]
                                      | [Hfree [Ht' Hbusy']]]];
          split; simpl.
        -- apply Forall_replaceNth; [exact Hall | left; exact Ht'].
        -- rewrite (Fetching_awaits t' Ht') in Hfilter. lia.
        -- apply Forall_replaceNth; [exact Hall | left; apply fetching_settled].
        -- simpl in Hfilter. rewrite Hfree in Hcount. rewrite Hfree'. lia.
        -- apply Forall_replaceNth; [exact Hall | right; exact Ht'].
        -- rewrite (Registering_awaits t' Ht') in Hfilter.
           rewrite Hfree in Hcount. rewrite Hbusy'. lia.
    + pose proof (Registering_awaits t Ht) as Hin.
      assert (Hbusy : isInProgress s = true).
      { destruct (isInProgress s); [reflexivity|].
        assert (Hsome : In t (filter awaitsRegistrationStep pool)).
        { apply filter_In. split; [apply (nth_error_In _ _ Hnth) | exact Hin]. }
        destruct (filter awaitsRegistrationStep pool); [destruct Hsome |].
        discriminate Hcount. }
      destruct Ht as [R c k Hkind Hnext]. simpl.
      specialize (Hnext h (h _ c) s Hbusy). simpl in Hnext.
      destruct (advance _ h (k (h R c)) s) as [t' s'].
      simpl in Hnext. specialize (Hfilter t' pool Hnth).
      rewrite Hin in Hfilter. rewrite Hbusy in Hcount.
      destruct Hnext as [[Ht' Hbusy'] | [Hout [[r' ->] Hfree']]]; split; simpl.
      * apply Forall_replaceNth; [exact Hall | right; exact Ht'].
      * rewrite (Registering_awaits t' Ht') in Hfilter. rewrite Hbusy'. lia.
      * apply Forall_replaceNth; [exact Hall | left; apply fetching_settled].
      * simpl in Hfilter. rewrite Hfree'. lia.
Qed.

Lemma actionStep_keeps_invariant :
  forall (store : Store)
         (st : Rendered Service PureModel GraphManagerState) e,
    Forall loopInvariant (modals st) ->
    Forall loopInvariant
      (modals (actionStep toUpperCase LATEST_PROJECT_REVISION
                 nullableValueError store st e)).
Proof.
  intros store st e Hall.
  destruct e as [| | m e]; simpl.
  - destruct (showRegisterServiceModal st); simpl; [exact Hall|].
    apply Forall_app. split; [exact Hall|].
    constructor; [| constructor].
    split; simpl; [constructor | now rewrite isInProgress_create].
  - exact Hall.
  - destruct (nth_error (modals st) m) as [modal|] eqn:Hnth; [| exact Hall].
    assert (Hstep : Forall loopInvariant
                      (replaceNth m
                         (loopStep toUpperCase LATEST_PROJECT_REVISION
                            nullableValueError store modal e) (modals st))).
    { apply Forall_replaceNth; [exact Hall|].
      apply loopStep_keeps_invariant.
      rewrite Forall_forall in Hall. apply Hall.
      apply (nth_error_In _ _ Hnth). }
    destruct e as [ui h | i h].
    + destruct (onScreen st m); simpl; [exact Hstep | exact Hall].
    + exact Hstep.
Qed.


End RegistrationProperties.

(** ** On the sample modal *)

(** The modal is closed and shown again while the registration started
    from it is in flight: the new modal starts on a fresh registration
    state, and a click on it starts a second registration.  Two invocations
    are inside the [try] block, one of each modal. *)
Example reopened_modal_registers_again :
  map (fun modal =>
         (List.length (filter ServiceRegisterModal.awaitsRegistrationStep
                         (fst modal)),
          ServiceRegisterModal.isInProgress (snd modal)))
      (ServiceRegisterModal.modals
         (ServiceRegisterModal.eventLoop Samples.upper "latest"
            (JsError "the value is null") Samples.sampleStore
            Samples.reopenedDuringRegistration))
  = [(1%nat, true); (1%nat, true)].
Proof. reflexivity. Qed.

(** A rejected registration does not escape the action. *)
Lemma registration_errors_do_not_escape_witness :
  ServiceRegisterModal.guard Samples.upper
    (ServiceRegisterModal.isInProgress Samples.freshState)
    Samples.sampleUi = false
  /\ result (run (pureEnv Samples.registrationRejected)
               (Samples.sampleRegisterService Samples.sampleUi)
               Samples.freshState) = Normal tt.
Proof.
  split; [reflexivity|].
  apply (@registration_errors_do_not_escape
           ServiceRegisterModal.ActionStateRecord
           ServiceRegisterModal.ActionStateRecord_api
           unit unit unit Samples.upper
           "latest" (JsError "the value is null")
           (pureEnv Samples.registrationRejected)
           Samples.sampleStore Samples.sampleUi
           Samples.freshState
           Samples.sampleProjectJson Samples.freshState
           Samples.sampleProject Samples.freshState
           Samples.sampleQueryInfo Samples.freshState);
    intros; reflexivity.
Defined.

(** The depot server does not answer: the error leaves the function. *)
Lemma failed_fetch_bypasses_the_catch_block_witness :
  result (run (pureEnv Samples.projectUnavailable)
            (Samples.sampleRegisterService Samples.sampleUi)
            Samples.freshState) = Abrupt (JsError "Service Unavailable")
  /\ final (run (pureEnv Samples.projectUnavailable)
              (Samples.sampleRegisterService Samples.sampleUi)
              Samples.freshState) = Samples.freshState
  /\ ServiceRegisterModal.notifications
       (trace (run (pureEnv Samples.projectUnavailable)
                 (Samples.sampleRegisterService Samples.sampleUi)
                 Samples.freshState)) = []
  /\ ServiceRegisterModal.loggedErrors
       (trace (run (pureEnv Samples.projectUnavailable)
                 (Samples.sampleRegisterService Samples.sampleUi)
                 Samples.freshState)) = []
  /\ ServiceRegisterModal.creations
       (trace (run (pureEnv Samples.projectUnavailable)
                 (Samples.sampleRegisterService Samples.sampleUi)
                 Samples.freshState)) = [].
Proof.
  apply (@failed_fetch_bypasses_the_catch_block
           ServiceRegisterModal.ActionStateRecord
           ServiceRegisterModal.ActionStateRecord_api
           unit unit unit Samples.upper
           "latest" (JsError "the value is null")
           (pureEnv Samples.projectUnavailable)
           Samples.sampleStore Samples.sampleUi
           Samples.freshState (JsError "Service Unavailable")
           Samples.freshState).
  left. reflexivity.
Defined.

(** The registration is rejected: no alert, one error logged and notified. *)
Lemma alert_or_notification_witness :
  ServiceRegisterModal.guard Samples.upper
    (ServiceRegisterModal.isInProgress Samples.freshState)
    Samples.sampleUi = false
  /\ ((List.length
         (ServiceRegisterModal.shownAlerts
            (trace (run (pureEnv Samples.registrationRejected)
                      (Samples.sampleRegisterService Samples.sampleUi)
                      Samples.freshState))) = 1%nat
       /\ ServiceRegisterModal.notifications
            (trace (run (pureEnv Samples.registrationRejected)
                      (Samples.sampleRegisterService Samples.sampleUi)
                      Samples.freshState)) = []
       /\ ServiceRegisterModal.loggedErrors
            (trace (run (pureEnv Samples.registrationRejected)
                      (Samples.sampleRegisterService Samples.sampleUi)
                      Samples.freshState)) = [])
      \/ (ServiceRegisterModal.shownAlerts
            (trace (run (pureEnv Samples.registrationRejected)
                      (Samples.sampleRegisterService Samples.sampleUi)
                      Samples.freshState)) = []
          /\ exists error,
              ServiceRegisterModal.notifications
                (trace (run (pureEnv Samples.registrationRejected)
                          (Samples.sampleRegisterService Samples.sampleUi)
                          Samples.freshState)) = [error]
              /\ ServiceRegisterModal.loggedErrors
                   (trace (run (pureEnv Samples.registrationRejected)
                             (Samples.sampleRegisterService Samples.sampleUi)
                             Samples.freshState))
                 = [(ServiceRegisterModal.SERVICE_REGISTRATION_FAILURE,
                     error)])).
Proof.
  split; [reflexivity|].
  apply (@alert_or_notification
           ServiceRegisterModal.ActionStateRecord
           ServiceRegisterModal.ActionStateRecord_api
           unit unit unit Samples.upper
           "latest" (JsError "the value is null")
           (pureEnv Samples.registrationRejected)
           Samples.sampleStore Samples.sampleUi
           Samples.freshState
           Samples.sampleProjectJson Samples.freshState
           Samples.sampleProject Samples.freshState
           Samples.sampleQueryInfo Samples.freshState);
    intros; reflexivity.
Defined.

(** The configuration lists no environment at all. *)
Lemma missing_environment_is_reported_witness :
  ServiceRegisterModal.selectedManagementUrl Samples.unconfiguredStore
    (ServiceRegisterModal.mkSelectOption "DEV" "dev") = None
  /\ ServiceRegisterModal.loggedErrors
       (trace (run (pureEnv Samples.allReturn)
                 (ServiceRegisterModal.registerService unit Samples.upper
                    "latest" (JsError "the value is null")
                    Samples.unconfiguredStore Samples.sampleUi)
                 Samples.freshState))
     = [(ServiceRegisterModal.SERVICE_REGISTRATION_FAILURE,
         JsError "the value is null")]
  /\ ServiceRegisterModal.notifications
       (trace (run (pureEnv Samples.allReturn)
                 (ServiceRegisterModal.registerService unit Samples.upper
                    "latest" (JsError "the value is null")
                    Samples.unconfiguredStore Samples.sampleUi)
                 Samples.freshState))
     = [JsError "the value is null"].
Proof.
  split; [reflexivity|].
  apply (@missing_environment_is_reported
           ServiceRegisterModal.ActionStateRecord
           ServiceRegisterModal.ActionStateRecord_api
           unit unit unit Samples.upper
           "latest" (JsError "the value is null")
           (pureEnv Samples.allReturn)
           Samples.unconfiguredStore Samples.sampleUi
           Samples.freshState
           Samples.sampleProjectJson Samples.freshState
           Samples.sampleProject Samples.freshState
           Samples.sampleQueryInfo Samples.freshState
           (ServiceRegisterModal.mkSelectOption "DEV" "dev"));
    intros; reflexivity.
Defined.

(** The one environment of the sample configuration, once selected. *)
Lemma offered_environment_has_a_management_url_witness :
  In Samples.devOption
    (ServiceRegisterModal.envOptions Samples.upper Samples.sampleStore)
  /\ ServiceRegisterModal.selectedEnvOption Samples.upper
       (ServiceRegisterModal.onServerEnvChange (Some Samples.devOption)
          Samples.sampleUiNoPath)
     = Some Samples.devOption.
Proof.
  split; [left; reflexivity|].
  apply (@offered_environment_has_a_management_url
           unit unit Samples.upper
           Samples.sampleStore Samples.sampleUiNoPath Samples.devOption).
  - left. reflexivity.
  - discriminate.
Defined.

(** The selection is cleared on the sample modal. *)
Lemma no_selection_no_registration_witness :
  ServiceRegisterModal.selectedEnvOption Samples.upper
    (ServiceRegisterModal.onServerEnvChange None Samples.sampleUi) = None
  /\ ServiceRegisterModal.creations
       (trace (run (pureEnv Samples.allReturn)
                 (Samples.sampleRegisterService
                    (ServiceRegisterModal.onServerEnvChange None
                       Samples.sampleUi))
                 Samples.freshState)) = [].
Proof.
  destruct (@no_selection_no_registration
              ServiceRegisterModal.ActionStateRecord
              ServiceRegisterModal.ActionStateRecord_api
              unit unit unit Samples.upper
              "latest" (JsError "the value is null")
              (pureEnv Samples.allReturn)
              Samples.sampleStore Samples.sampleUi None Samples.freshState)
    as [Hcleared [Hcreated _]].
  - left. reflexivity.
  - split; assumption.
Defined.

(** The sample inputs, with the sample validators. *)
Lemma flags_follow_the_inputs_witness :
  Samples.nonEmptyPath "model::QueryService" = true
  /\ Samples.patternIssue "/0b5f" = false
  /\ ServiceRegisterModal.isServicePathValid
       (ServiceRegisterModal.afterInputs Samples.nonEmptyPath
          Samples.patternIssue Samples.sampleInputs
          (ServiceRegisterModal.initialModalState "0b5f"))
     = Samples.nonEmptyPath
         (ServiceRegisterModal.servicePath
            (ServiceRegisterModal.afterInputs Samples.nonEmptyPath
               Samples.patternIssue Samples.sampleInputs
               (ServiceRegisterModal.initialModalState "0b5f"))).
Proof.
  split; [reflexivity|]. split; [reflexivity|].
  apply (@flags_follow_the_inputs
           Samples.nonEmptyPath Samples.patternIssue
           "0b5f" Samples.sampleInputs); reflexivity.
Defined.

(** The sample modal registers a service, and its input is valid. *)
Lemma only_valid_input_is_registered_witness :
  ServiceRegisterModal.creations
    (trace (run (pureEnv Samples.allReturn)
              (Samples.sampleRegisterService Samples.sampleUi)
              Samples.freshState)) <> []
  /\ Samples.nonEmptyPath
       (ServiceRegisterModal.servicePath Samples.sampleUi) = true
  /\ Samples.patternIssue
       (ServiceRegisterModal.servicePattern Samples.sampleUi) = false.
Proof.
  split; [discriminate|].
  split;
    apply (@only_valid_input_is_registered
             ServiceRegisterModal.ActionStateRecord
             ServiceRegisterModal.ActionStateRecord_api
             unit unit unit Samples.upper
             "latest" (JsError "the value is null")
             Samples.nonEmptyPath Samples.patternIssue
             (pureEnv Samples.allReturn)
             Samples.sampleStore Samples.sampleUi Samples.freshState);
    first [reflexivity | discriminate].
Defined.
